(** * DD1750 form renderer: layout, pagination and page composition

    A shallow embedding of [dd1750_generator.py] and the properties of its
    pagination and drawing code.

    Modelling choices:
    - Python [float] is IEEE binary64, embedded as Rocq's primitive [float];
      every coordinate the renderer computes is evaluated by the kernel with
      the same rounding as the interpreter.
    - Python [int] item fields are [Z]; list lengths and indices are [nat].
    - Python [str] is [string]; one character of the model stands for one
      character of the Python string.
    - The reportlab canvas is a record holding the current font and the
      draw instructions issued so far; its methods pass the canvas along.
    - Files live in a [gmap] from paths to contents.  Code that opens files
      runs in a state-and-exception monad over that store.

    The file then embeds the deduplicating extractor of
    [vision_extractor.py] and the credit and access-code handlers of
    [app.py], each in a module of its own, with the services they call
    (rasteriser, vision service, clock, random source) as parameters. *)

From Stdlib Require Import ZArith String Ascii List Lia Bool.
From Stdlib Require Import PrimFloat Uint63 DecimalString Strings.Byte.
From stdpp Require Import base option list gmap strings.

Local Open Scope string_scope.

(** ** Python helpers *)

(** [str(n)] for an integer. *)
Definition str (z : Z) : string := NilZero.string_of_int (Z.to_int z).

(** Truth value of a string: non-empty. *)
Definition truthy (s : string) : bool :=
  match s with
  | EmptyString => false
  | String _ _ => true
  end.

(** [s[:n]] for [n >= 0]. *)
Definition str_prefix (n : nat) (s : string) : string := substring 0 n s.

(** [l[a:b]] for [0 <= a] and [0 <= b]. *)
Definition slice {A} (l : list A) (a b : nat) : list A := take (b - a) (drop a l).

(** [enumerate(l)] *)
Definition enumerate {A} (l : list A) : list (nat * A) := zip (seq 0 (length l)) l.

(** Conversion of a small non-negative [int] to [float], as done by [i * ROW_H].
    It is exact below [2^53]; row indices are below [ROWS_PER_PAGE]. *)
Definition float_of_nat (i : nat) : float := PrimFloat.of_uint63 (Uint63.of_Z (Z.of_nat i)).

(** [math.ceil(a / b)] on lengths.  The quotient [a / b] is a binary64
    division; with [b = 18] and [a < 2^53] its rounding error is below the
    distance [1/18] of an inexact quotient to the integer under it, so
    the ceiling is the integer one. *)
Definition ceil_div (a b : nat) : nat := (a + (b - 1)) / b.

#[global] Instance float_inhabited : Inhabited float := populate PrimFloat.nan.

(** ** DD1750 form layout constants *)

Definition ROWS_PER_PAGE : nat := 18.
Definition PAGE_W : float := 612.0%float.
Definition PAGE_H : float := 792.0%float.

(** Column x positions (left, right). *)
Definition X_BOX_L : float := 44.0%float.
Definition X_BOX_R : float := 88.0%float.
Definition X_CONTENT_L : float := 88.0%float.
Definition X_CONTENT_R : float := 365.0%float.
Definition X_UOI_L : float := 365.0%float.
Definition X_UOI_R : float := 408.5%float.
Definition X_INIT_L : float := 408.5%float.
Definition X_INIT_R : float := 453.5%float.
Definition X_SPARES_L : float := 453.5%float.
Definition X_SPARES_R : float := 514.5%float.
Definition X_TOTAL_L : float := 514.5%float.
Definition X_TOTAL_R : float := 566.0%float.

(** Row y positions. *)
Definition Y_TABLE_TOP_LINE : float := 616.0%float.
Definition Y_TABLE_BOTTOM_LINE : float := 89.5%float.
Definition ROW_H : float :=
  ((Y_TABLE_TOP_LINE - Y_TABLE_BOTTOM_LINE) / float_of_nat ROWS_PER_PAGE)%float.
Definition PAD_X : float := 3.0%float.

(** Header field positions. *)
Definition HEADER_Y : gmap string float :=
  <["packed_by" := 735.0%float]> (
  <["no_boxes" := 735.0%float]> (
  <["req_no" := 735.0%float]> (
  <["order_no" := 710.0%float]> (
  <["end_item" := 685.0%float]> (
  <["date" := 685.0%float]> (
  <["page" := 660.0%float]> ∅)))))).

Definition HEADER_X : gmap string float :=
  <["packed_by" := 95.0%float]> (
  <["no_boxes" := 240.0%float]> (
  <["req_no" := 370.0%float]> (
  <["order_no" := 370.0%float]> (
  <["end_item" := 95.0%float]> (
  <["date" := 500.0%float]> (
  <["page_num" := 500.0%float]> (
  <["page_total" := 545.0%float]> ∅))))))).

(** ** Records *)

Record DD1750Item := {
  line_no : Z;
  description : string;
  nsn : string;
  unit_of_issue : string;
  initial_qty : Z;
  spares_qty : Z;
  total_qty : Z
}.

Record DD1750Header := {
  packed_by : string;
  no_boxes : string;
  requisition_no : string;
  order_no : string;
  end_item : string;
  date : string;
  certifier_name : string;
  certifier_title : string
}.

(** ** The canvas *)

Inductive alignment := AlignLeft | AlignCentred.

(** One positioned text draw, with the font in force when it was issued. *)
Record draw := {
  d_align : alignment;
  d_x : float;
  d_y : float;
  d_text : string;
  d_font : string;
  d_size : Z
}.

Record canvas := {
  pagesize : float * float;
  font_name : string;
  font_size : Z;
  ops : list draw
}.

(** [canvas.Canvas(packet, pagesize=...)]: reportlab starts in Helvetica 12. *)
Definition Canvas (size : float * float) : canvas :=
  {| pagesize := size; font_name := "Helvetica"; font_size := 12; ops := [] |}.

Definition setFont (name : string) (size : Z) (can : canvas) : canvas :=
  {| pagesize := pagesize can; font_name := name; font_size := size; ops := ops can |}.

Definition emit (a : alignment) (x y : float) (text : string) (can : canvas) : canvas :=
  {| pagesize := pagesize can; font_name := font_name can; font_size := font_size can;
     ops := ops can ++ [ {| d_align := a; d_x := x; d_y := y; d_text := text;
                            d_font := font_name can; d_size := font_size can |} ] |}.

Definition drawString (x y : float) (text : string) (can : canvas) : canvas :=
  emit AlignLeft x y text can.

Definition drawCentredString (x y : float) (text : string) (can : canvas) : canvas :=
  emit AlignCentred x y text can.

(** ** Documents *)

(** What a page shows: marks that were already on it (the pre-printed grid
    and labels of a template), and text drawn by a canvas. *)
Inductive content :=
| Printed (mark : string)
| Text (d : draw).

Definition page := list content.
Definition pdf := list page.

(** [can.save()] closes the single page of the canvas: the document held by
    the packet has that one page. *)
Definition save (can : canvas) : pdf := [Text <$> ops can].

(** [page.merge_page(other)]: the other page's content is layered on top. *)
Definition merge_page (p other : page) : page := (p ++ other)%list.

Definition PdfWriter : pdf := [].
Definition add_page (writer : pdf) (p : page) : pdf := (writer ++ [p])%list.

(** ** Header *)

Definition _draw_header (can : canvas) (header : DD1750Header)
    (page_num total_pages : nat) : canvas :=
  let can := setFont "Helvetica" 10 can in
  (* Packed By *)
  let can :=
    if truthy (packed_by header)
    then drawString (HEADER_X !!! "packed_by") (HEADER_Y !!! "packed_by") (packed_by header) can
    else can in
  (* Number of Boxes *)
  let can :=
    if truthy (no_boxes header)
    then drawString (HEADER_X !!! "no_boxes") (HEADER_Y !!! "no_boxes") (no_boxes header) can
    else can in
  (* Requisition Number *)
  let can :=
    if truthy (requisition_no header)
    then drawString (HEADER_X !!! "req_no") (HEADER_Y !!! "req_no") (requisition_no header) can
    else can in
  (* Order Number *)
  let can :=
    if truthy (order_no header)
    then drawString (HEADER_X !!! "order_no") (HEADER_Y !!! "order_no") (order_no header) can
    else can in
  (* End Item *)
  let can :=
    if truthy (end_item header)
    then
      let can := setFont "Helvetica" 8 can in
      drawString (HEADER_X !!! "end_item") (HEADER_Y !!! "end_item")
        (str_prefix 60 (end_item header)) can
    else can in
  (* Date *)
  let can := setFont "Helvetica" 10 can in
  let can :=
    if truthy (date header)
    then drawString (HEADER_X !!! "date") (HEADER_Y !!! "date") (date header) can
    else can in
  (* Page numbers *)
  let can := drawString (HEADER_X !!! "page_num") (HEADER_Y !!! "page")
               (str (Z.of_nat page_num)) can in
  let can := drawString (HEADER_X !!! "page_total") (HEADER_Y !!! "page")
               (str (Z.of_nat total_pages)) can in
  (* Certifier info at bottom *)
  if truthy (certifier_name header) || truthy (certifier_title header)
  then
    let can := setFont "Helvetica" 9 can in
    let cert_y := 55.0%float in
    let can :=
      if truthy (certifier_name header)
      then drawString 95.0%float cert_y (certifier_name header) can
      else can in
    if truthy (certifier_title header)
    then drawString 280.0%float cert_y (certifier_title header) can
    else can
  else can.

(** ** Page composition *)

(** The header part of the loop body: the [if header: ... else: ...]. *)
Definition draw_page_header (can : canvas) (header : option DD1750Header)
    (page_num total_pages : nat) : canvas :=
  match header with
  | Some h => _draw_header can h (page_num + 1) total_pages
  | None =>
      (* Just draw page numbers *)
      let can := setFont "Helvetica" 10 can in
      let can := drawString (HEADER_X !!! "page_num") (HEADER_Y !!! "page")
                   (str (Z.of_nat (page_num + 1))) can in
      drawString (HEADER_X !!! "page_total") (HEADER_Y !!! "page")
        (str (Z.of_nat total_pages)) can
  end.

(** The body of [for i, item in enumerate(page_items)]. *)
Definition draw_item (first_row_top : float) (can : canvas) (i : nat) (item : DD1750Item)
    : canvas :=
  let y := (first_row_top - (float_of_nat i * ROW_H))%float in
  let y_desc := (y - 7.0)%float in
  let y_nsn := (y - 17.0)%float in
  (* Box number (line number) *)
  let can := setFont "Helvetica" 8 can in
  let can := drawCentredString ((X_BOX_L + X_BOX_R) / 2)%float y_desc (str (line_no item)) can in
  (* Description (truncate if needed) *)
  let can := setFont "Helvetica" 7 can in
  let desc :=
    if (50 <? String.length (description item))%nat
    then str_prefix 50 (description item)
    else description item in
  let can := drawString (X_CONTENT_L + PAD_X)%float y_desc desc can in
  (* NSN (if present) *)
  let can :=
    if truthy (nsn item)
    then
      let can := setFont "Helvetica" 6 can in
      drawString (X_CONTENT_L + PAD_X)%float y_nsn ("NSN: " ++ nsn item) can
    else can in
  (* Unit of Issue *)
  let can := setFont "Helvetica" 8 can in
  let can := drawCentredString ((X_UOI_L + X_UOI_R) / 2)%float y_desc (unit_of_issue item) can in
  (* Initial Operation Qty *)
  let can := drawCentredString ((X_INIT_L + X_INIT_R) / 2)%float y_desc
               (str (initial_qty item)) can in
  (* Running Spares Qty *)
  let can := drawCentredString ((X_SPARES_L + X_SPARES_R) / 2)%float y_desc
               (str (spares_qty item)) can in
  (* Total Qty *)
  drawCentredString ((X_TOTAL_L + X_TOTAL_R) / 2)%float y_desc (str (total_qty item)) can.

(** The items of page [page_num]: [items[start_idx:end_idx]]. *)
Definition page_items (items : list DD1750Item) (page_num : nat) : list DD1750Item :=
  let start_idx := page_num * ROWS_PER_PAGE in
  let end_idx := Nat.min ((page_num + 1) * ROWS_PER_PAGE) (length items) in
  slice items start_idx end_idx.

(** The canvas of one page, up to [can.save()]. *)
Definition draw_overlay (items : list DD1750Item) (header : option DD1750Header)
    (total_pages page_num : nat) : canvas :=
  let page_items := page_items items page_num in
  (* Create overlay *)
  let can := Canvas (PAGE_W, PAGE_H) in
  (* Add header info *)
  let can := draw_page_header can header page_num total_pages in
  (* Draw items *)
  let first_row_top := (Y_TABLE_TOP_LINE - 5.0)%float in
  fold_left (fun can '(i, item) => draw_item first_row_top can i item)
    (enumerate page_items) can.

(** ** Files, exceptions and the monad of file operations *)

Inductive file :=
| PdfFile (doc : pdf)
| OtherFile (raw : string).

Inductive exn :=
| OSError
| FileNotFoundError
| PdfReadError
| IndexError.

(** The file store, and the number of files opened so far. *)
Record world := {
  files : gmap string file;
  clock : nat
}.

Definition IO (A : Type) : Type := world -> world * (exn + A).

Definition ret {A} (a : A) : IO A := fun w => (w, inr a).

Definition raise {A} (e : exn) : IO A := fun w => (w, inl e).

Definition bind {A B} (m : IO A) (k : A -> IO B) : IO B :=
  fun w =>
    match m w with
    | (w', inl e) => (w', inl e)
    | (w', inr a) => k a w'
    end.

Notation "'let!' x ':=' m 'in' k" := (bind m (fun x => k))
  (at level 10, x binder, m at level 100, k at level 200).
Notation "'do!' m 'in' k" := (bind m (fun _ => k))
  (at level 10, m at level 100, k at level 200).

(** [d.pages[n]] *)
Definition pages_at (d : pdf) (n : nat) : IO page :=
  match d !! n with
  | Some p => ret p
  | None => raise IndexError
  end.

Section Renderer.

(** The environment: [fault t] tells whether the [t]-th opening of a file
    fails for a reason outside the program (device error, permissions,
    descriptor limit). *)
Variable fault : nat -> bool.

(** Every opening of a file takes one step of the clock and may fail. *)
Definition open_file : IO unit :=
  fun w =>
    let w' := {| files := files w; clock := S (clock w) |} in
    if fault (clock w) then (w', inl OSError) else (w', inr tt).

(** [PdfReader(path)]: opens and parses the file. *)
Definition PdfReader (path : string) : IO pdf :=
  do! open_file in
  fun w =>
    match files w !! path with
    | None => (w, inl FileNotFoundError)
    | Some (OtherFile _) => (w, inl PdfReadError)
    | Some (PdfFile d) => (w, inr d)
    end.

(** [with open(path, 'wb') as f: writer.write(f)].  The opening may fail, and
    then nothing is written.  Once the file is open the write is taken to
    complete: an error in the middle of [writer.write], which would leave a
    truncated file at [path] and at no other path, is not modelled. *)
Definition write_to (path : string) (writer : pdf) : IO unit :=
  do! open_file in
  fun w => ({| files := <[path := PdfFile writer]> (files w); clock := clock w |}, inr tt).

(** The body of [for page_num in range(total_pages)]. *)
Definition compose_page (items : list DD1750Item) (template_path : string)
    (header : option DD1750Header) (total_pages : nat) (writer : pdf) (page_num : nat)
    : IO pdf :=
  let can := draw_overlay items header total_pages page_num in
  let packet := save can in
  (* Merge overlay with template *)
  let overlay := packet in
  let! reader := PdfReader template_path in
  let! page := pages_at reader 0 in
  let! overlay_page := pages_at overlay 0 in
  let page := merge_page page overlay_page in
  ret (add_page writer page).

Fixpoint for_pages (items : list DD1750Item) (template_path : string)
    (header : option DD1750Header) (total_pages : nat) (range : list nat) (writer : pdf)
    : IO pdf :=
  match range with
  | [] => ret writer
  | page_num :: range' =>
      let! writer := compose_page items template_path header total_pages writer page_num in
      for_pages items template_path header total_pages range' writer
  end.

Definition generate_dd1750 (items : list DD1750Item) (template_path output_path : string)
    (header : option DD1750Header) : IO (string * nat) :=
  match items with
  | [] =>
      (* Return blank template if no items *)
      let! reader := PdfReader template_path in
      let writer := PdfWriter in
      let! page := pages_at reader 0 in
      let writer := add_page writer page in
      do! write_to output_path writer in
      ret (output_path, 0)
  | _ :: _ =>
      let total_pages := ceil_div (length items) ROWS_PER_PAGE in
      let writer := PdfWriter in
      let! writer := for_pages items template_path header total_pages (seq 0 total_pages) writer in
      do! write_to output_path writer in
      ret (output_path, length items)
  end.

End Renderer.

(** The number of pages of a non-empty list. *)
Definition total_pages (items : list DD1750Item) : nat :=
  ceil_div (length items) ROWS_PER_PAGE.

(** The draw instructions of page [page_num] of the output. *)
Definition overlay_ops (items : list DD1750Item) (header : option DD1750Header)
    (page_num : nat) : list draw :=
  ops (draw_overlay items header (total_pages items) page_num).

(** ** Worlds and documents used in the statements *)

Definition tick (w : world) : world := {| files := files w; clock := S (clock w) |}.

Definition advance (n : nat) (w : world) : world :=
  {| files := files w; clock := clock w + n |}.

(** What [compose_page] adds to the writer for page [k]. *)
Definition composed (items : list DD1750Item) (header : option DD1750Header)
    (total : nat) (t0 : page) (k : nat) : page :=
  (t0 ++ (Text <$> ops (draw_overlay items header total k)))%list.

(** The document a successful call writes. *)
Definition rendered (items : list DD1750Item) (header : option DD1750Header) (t0 : page) : pdf :=
  match items with
  | [] => [t0]
  | _ :: _ => map (fun k => (t0 ++ (Text <$> overlay_ops items header k))%list)
                (seq 0 (total_pages items))
  end.

(** ** The draws as the specification words them

    These definitions follow the specification's sentences; the lemmas of
    the second part compare them with what the canvas code above issues. *)

(** A draw in Helvetica. *)
Definition text_at (a : alignment) (x y : float) (size : Z) (text : string) : draw :=
  {| d_align := a; d_x := x; d_y := y; d_text := text;
     d_font := "Helvetica"; d_size := size |}.

(** A draw that is issued only when the field is present. *)
Definition when_present (field : string) (d : draw) : list draw :=
  if truthy field then [d] else [].

(** Header fields that are the same on every page. *)
Definition spec_header_fields (h : DD1750Header) : list draw :=
  (when_present (packed_by h) (text_at AlignLeft 95.0 735.0 10 (packed_by h)) ++
   when_present (no_boxes h) (text_at AlignLeft 240.0 735.0 10 (no_boxes h)) ++
   when_present (requisition_no h) (text_at AlignLeft 370.0 735.0 10 (requisition_no h)) ++
   when_present (order_no h) (text_at AlignLeft 370.0 710.0 10 (order_no h)) ++
   when_present (end_item h) (text_at AlignLeft 95.0 685.0 8 (str_prefix 60 (end_item h))) ++
   when_present (date h) (text_at AlignLeft 500.0 685.0 10 (date h)))%list%float.

(** The page-number field: the 1-based index of the page and the total. *)
Definition spec_page_number (index total : nat) : list draw :=
  [ text_at AlignLeft 500.0 660.0 10 (str (Z.of_nat index));
    text_at AlignLeft 545.0 660.0 10 (str (Z.of_nat total)) ]%float.

(** The certifier line near the page bottom. *)
Definition spec_certifier (h : DD1750Header) : list draw :=
  (when_present (certifier_name h) (text_at AlignLeft 95.0 55.0 9 (certifier_name h)) ++
   when_present (certifier_title h) (text_at AlignLeft 280.0 55.0 9 (certifier_title h)))%list%float.

(** The anchor of row [i] of a page. *)
Definition spec_row_anchor (i : nat) : float :=
  ((616.0 - 5.0) - float_of_nat i * ROW_H)%float.

(** The text shown for a description: cut to 50 characters when longer. *)
Definition spec_description (s : string) : string :=
  if (String.length s <=? 50)%nat then s else substring 0 50 s.

(** The draws of one item in row [i]. *)
Definition spec_row (i : nat) (item : DD1750Item) : list draw :=
  let y := spec_row_anchor i in
  ([ text_at AlignCentred ((X_BOX_L + X_BOX_R) / 2) (y - 7.0) 8 (str (line_no item));
     text_at AlignLeft (X_CONTENT_L + 3.0) (y - 7.0) 7 (spec_description (description item)) ] ++
   when_present (nsn item)
     (text_at AlignLeft (X_CONTENT_L + 3.0) (y - 17.0) 6 ("NSN: " ++ nsn item)) ++
   [ text_at AlignCentred ((X_UOI_L + X_UOI_R) / 2) (y - 7.0) 8 (unit_of_issue item);
     text_at AlignCentred ((X_INIT_L + X_INIT_R) / 2) (y - 7.0) 8 (str (initial_qty item));
     text_at AlignCentred ((X_SPARES_L + X_SPARES_R) / 2) (y - 7.0) 8 (str (spares_qty item));
     text_at AlignCentred ((X_TOTAL_L + X_TOTAL_R) / 2) (y - 7.0) 8 (str (total_qty item)) ]
  )%list%float.

(** The header part of a page: the whole header when one is given, the
    page-number field alone otherwise. *)
Definition spec_page_header (header : option DD1750Header) (index total : nat) : list draw :=
  match header with
  | Some h => (spec_header_fields h ++ spec_page_number index total ++ spec_certifier h)%list
  | None => spec_page_number index total
  end.

(** ** Sample data *)

Definition wrench : DD1750Item :=
  {| line_no := 1; description := "WRENCH, ADJUSTABLE: 12 IN."; nsn := "123456789";
     unit_of_issue := "EA"; initial_qty := 2; spares_qty := 0; total_qty := 2 |}.

Definition blank_form : page := [Printed "DD FORM 1750"].

Definition disk : world :=
  {| files := {["blank_1750.pdf" := PdfFile [blank_form]]}; clock := 0 |}.

Definition no_fault : nat -> bool := fun _ => false.

Definition full_header : DD1750Header :=
  {| packed_by := "SGT DOE"; no_boxes := "2"; requisition_no := "W81XYZ"; order_no := "0042";
     end_item := "TOOL KIT, GENERAL MECHANIC"; date := "2024-05-01";
     certifier_name := "J. DOE"; certifier_title := "SUPPLY SGT" |}.

Definition long_item : DD1750Item :=
  {| line_no := 7;
     description := "GENERATOR SET, DIESEL ENGINE, SKID MOUNTED, 10 KW!!";
     nsn := ""; unit_of_issue := "EA"; initial_qty := 1; spares_qty := 0; total_qty := 1 |}.

(** [DD1750Header()]: every field at its default. *)
Definition empty_header : DD1750Header :=
  {| packed_by := ""; no_boxes := ""; requisition_no := ""; order_no := "";
     end_item := ""; date := ""; certifier_name := ""; certifier_title := "" |}.

(** The second opening of a file fails. *)
Definition second_read_fails : nat -> bool := fun t => Nat.eqb t 1.

(** A second store: the same form under another name, and a clock that
    has already run. *)
Definition other_disk : world :=
  {| files := {["forms/dd1750.pdf" := PdfFile [blank_form; blank_form]]}; clock := 5 |}.

(** * The vision extractor ([vision_extractor.py])

    The PDF rasteriser (pdf2image), the PNG encoder and the vision service
    are outside the program: they are parameters of the section, so every
    property below holds whatever they answer. *)

Module vision_extractor.

(** An item extracted from a BOM. *)
Record ExtractedItem := {
  description : string;
  nsn : string;
  qty : Z;
  confidence : string;
  notes : string
}.

Definition bytes := list Byte.byte.

Inductive exn :=
| ValueError (msg : string)
| ConversionError (msg : string).

(** *** Python lists and dicts *)

(** Where a slice bound falls in a list of length [len]: negative bounds
    count from the end, and every bound is clamped to the list. *)
Definition slice_bound (len : nat) (a : Z) : nat :=
  if (a <? 0)%Z then Z.to_nat (Z.max 0 (a + Z.of_nat len))
  else Nat.min (Z.to_nat a) len.

(** [l[a:b]] for any integers [a], [b]. *)
Definition py_slice {A} (l : list A) (a b : Z) : list A :=
  let lo := slice_bound (length l) a in
  let hi := slice_bound (length l) b in
  take (hi - lo) (drop lo l).

(** A [dict] with string keys, in insertion order. *)
Definition dict (V : Type) := list (string * V).

(** [d.get(key)] / [key in d] *)
Fixpoint dict_get {V} (d : dict V) (key : string) : option V :=
  match d with
  | [] => None
  | (k, v) :: d' => if String.eqb k key then Some v else dict_get d' key
  end.

(** [d[key] = v]: a key that is present keeps its place. *)
Fixpoint dict_set {V} (d : dict V) (key : string) (v : V) : dict V :=
  match d with
  | [] => [(key, v)]
  | (k, v') :: d' =>
      if String.eqb k key then (k, v) :: d' else (k, v') :: dict_set d' key v
  end.

(** [list(d.values())] *)
Definition values {V} (d : dict V) : list V := d.*2.

Section Extractor.

Context {image : Type}.

(** pdf2image: the pages of a PDF as images, or an error. *)
Variable convert_from_path : string -> Z -> exn + list image.
Variable convert_from_bytes : bytes -> Z -> exn + list image.

(** [img.save(buffer, format='PNG'); buffer.getvalue()] *)
Variable save_png : image -> bytes.

(** [extract_items_from_image]: what the vision service, asked for the
    [call]-th time, makes of a page.  The function catches every exception
    of its own and then returns the empty list, so it always returns. *)
Variable extract_items_from_image : forall (call : nat), bytes -> string -> Z -> list ExtractedItem.

(** [str.upper] *)
Variable upper : string -> string.

Definition pdf_to_images (pdf_path : option string) (pdf_bytes : option bytes) (dpi : Z)
    : exn + list bytes :=
  let images :=
    match pdf_path, pdf_bytes with
    | Some (String c path'), _ => convert_from_path (String c path') dpi
    | _, Some (b :: bs) => convert_from_bytes (b :: bs) dpi
    | _, _ => inl (ValueError "Must provide either pdf_path or pdf_bytes")
    end in
  match images with
  | inl e => inl e
  | inr images => inr (save_png <$> images)
  end.

(** The loop over the pages to process: the items found so far, and the
    arguments of every call of the progress callback when there is one. *)
Definition collect_items (api_key : string) (start_page : Z) (total : nat)
    (progress_callback : bool) (images_to_process : list bytes)
    : list ExtractedItem * list (Z * nat * nat) :=
  fold_left
    (fun '(all_items, reported) '(i, img_bytes) =>
       let page_num := (start_page + Z.of_nat i + 1)%Z in
       let reported :=
         if progress_callback
         then (reported ++ [(page_num, total, length all_items)])%list
         else reported in
       let page_items := extract_items_from_image i img_bytes api_key page_num in
       ((all_items ++ page_items)%list, reported))
    (enumerate images_to_process) ([], []).

(** The body of the deduplication loop. *)
Definition keep_highest (seen : dict ExtractedItem) (item : ExtractedItem)
    : dict ExtractedItem :=
  let key := upper (description item) in
  match dict_get seen key with
  | None => dict_set seen key item
  | Some old => if (qty old <? qty item)%Z then dict_set seen key item else seen
  end.

(** Deduplicate items by description (keep highest qty). *)
Definition deduplicate (all_items : list ExtractedItem) : list ExtractedItem :=
  let seen := fold_left keep_highest all_items [] in
  values seen.

Definition extract_items_from_pdf (api_key : string) (pdf_path : option string)
    (pdf_bytes : option bytes) (start_page : Z) (end_page : option Z)
    (progress_callback : bool)
    : exn + (list ExtractedItem * list (Z * nat * nat)) :=
  (* Convert PDF to images *)
  match pdf_to_images pdf_path pdf_bytes 150 with
  | inl e => inl e
  | inr images =>
      (* Apply page range *)
      let end_page :=
        match end_page with
        | None => Z.of_nat (length images)
        | Some e => e
        end in
      let images_to_process := py_slice images start_page end_page in
      let '(all_items, reported) :=
        collect_items api_key start_page (length images) progress_callback
          images_to_process in
      inr (deduplicate all_items, reported)
  end.

End Extractor.

End vision_extractor.

(** What the dict of the deduplication loop satisfies after the items [l]:
    its keys are distinct, every entry is an item of [l] under its own key,
    and every item of [l] has an entry of at least its quantity. *)
Definition seen_after (upper : string -> string)
    (l : list vision_extractor.ExtractedItem)
    (seen : vision_extractor.dict vision_extractor.ExtractedItem) : Prop :=
  NoDup seen.*1 /\
  Forall (fun kv => upper (vision_extractor.description kv.2) = kv.1 /\ kv.2 ∈ l) seen /\
  (forall x, x ∈ l ->
     exists v, vision_extractor.dict_get seen (upper (vision_extractor.description x)) = Some v /\
               (vision_extractor.qty x <= vision_extractor.qty v)%Z).

(** * The web application ([app.py]): credits and access codes

    The three module-level dicts are the fields of [globals]; a handler
    takes the globals and the session of the request and returns them
    updated.  What comes from outside (the configuration read from the
    environment, fresh identifiers, the clock, random codes) is a parameter
    of the section. *)

Module app.

(** JSON values, for the bodies of responses. *)
#[local] Unset Elimination Schemes.
Inductive json :=
| JNull
| JBool (b : bool)
| JInt (z : Z)
| JStr (s : string)
| JArr (l : list json)
| JObj (fields : list (string * json)).
#[local] Set Elimination Schemes.

(** [jsonify(body), status] *)
Definition response : Type := json * Z.

(** A value of [USER_DATA]: the dict with keys ['extractions_used'],
    ['credits'] and ['total_paid']. *)
Record user_data := {
  extractions_used : Z;
  credits : Z;
  total_paid : Z
}.

(** A value of [ACCESS_CODES]: the dict with keys ['credits'], ['used'],
    ['used_by'], ['created'] and, once redeemed, ['used_at'].  (The field
    for ['credits'] is [code_credits]: [credits] is taken by [user_data].) *)
Record code_data := {
  code_credits : Z;
  used : bool;
  used_by : option string;
  created : string;
  used_at : option string
}.

(** An entry of the item lists that the server stores and sends: the dict
    with keys ['id'], ['description'], ['nsn'], ['qty'], ['confidence'],
    ['notes'] and ['unit_of_issue']. *)
Record item_data := {
  i_id : Z;
  i_description : string;
  i_nsn : string;
  i_qty : Z;
  i_confidence : string;
  i_notes : string;
  i_unit_of_issue : string
}.

(** A value of [TEMP_STORAGE]. *)
Inductive temp :=
| TBytes (b : vision_extractor.bytes)
| TStr (s : string)
| TInt (z : Z)
| TItems (l : list item_data).

Record globals := {
  ACCESS_CODES : gmap string code_data;
  USER_DATA : gmap string user_data;
  TEMP_STORAGE : gmap string temp
}.

(** The Flask session of the request. *)
Record session := {
  user_id : option string;
  permanent : bool
}.

(** Get or create a persistent user ID from session; [uuid] is the value
    [str(uuid.uuid4())] would have. *)
Definition get_user_id (uuid : string) (sess : session) : string * session :=
  match user_id sess with
  | None => (uuid, {| user_id := Some uuid; permanent := true |})
  | Some u => (u, sess)
  end.

(** Get user data, creating default if needed.  The dict returned is the one
    stored: the callers below write their changes back under the same key. *)
Definition get_user_data (uid : string) (users : gmap string user_data)
    : user_data * gmap string user_data :=
  match users !! uid with
  | None =>
      let d := {| extractions_used := 0; credits := 0; total_paid := 0 |} in
      (d, <[uid := d]> users)
  | Some d => (d, users)
  end.

Section App.

(** [int(os.environ.get('FREE_EXTRACTIONS', '3'))] *)
Variable FREE_EXTRACTIONS : Z.
Variable ANTHROPIC_API_KEY : string.
Variable ADMIN_PASSWORD : string.

(** [str.strip] and [str.upper] *)
Variable strip : string -> string.
Variable upper : string -> string.

(** Calculate remaining extractions for a user. *)
Definition get_remaining_extractions (uid : string) (users : gmap string user_data)
    : Z * gmap string user_data :=
  let '(data, users) := get_user_data uid users in
  let free_remaining := Z.max 0 (FREE_EXTRACTIONS - extractions_used data) in
  ((free_remaining + credits data)%Z, users).

(** Use one extraction credit. Returns True if successful. *)
Definition use_extraction (uid : string) (users : gmap string user_data)
    : bool * gmap string user_data :=
  let '(data, users) := get_user_data uid users in
  (* First use free extractions *)
  if (extractions_used data <? FREE_EXTRACTIONS)%Z then
    (true, <[uid := {| extractions_used := extractions_used data + 1;
                       credits := credits data;
                       total_paid := total_paid data |}]> users)
  (* Then use paid credits *)
  else if (0 <? credits data)%Z then
    (true, <[uid := {| extractions_used := extractions_used data;
                       credits := credits data - 1;
                       total_paid := total_paid data |}]> users)
  else (false, users).

(** [get_user_data(user_id)['credits'] += n] *)
Definition add_credits (uid : string) (n : Z) (users : gmap string user_data)
    : gmap string user_data :=
  let '(data, users) := get_user_data uid users in
  <[uid := {| extractions_used := extractions_used data;
              credits := credits data + n;
              total_paid := total_paid data |}]> users.

(** Check if the API key is configured. *)
Definition check_api_configured : bool := truthy ANTHROPIC_API_KEY.

Definition error (msg : string) (status : Z) : response :=
  (JObj [("error", JStr msg)], status).

(** [/redeem-code]: redeem an access code for extraction credits.  [code] is
    the value under ['code'] in the request body when there is one; [now] is
    [datetime.now().isoformat()]. *)
Definition redeem_code (uuid now : string) (code : option string)
    (sess : session) (g : globals) : response * session * globals :=
  let code := upper (strip (default "" code)) in
  if negb (truthy code) then (error "Please enter an access code" 400, sess, g)
  else
    match ACCESS_CODES g !! code with
    | None => (error "Invalid access code" 400, sess, g)
    | Some code_data =>
        if used code_data then (error "This code has already been used" 400, sess, g)
        else
          (* Mark code as used and add credits to user *)
          let '(uid, sess) := get_user_id uuid sess in
          let code_data :=
            {| code_credits := code_credits code_data; used := true;
               used_by := Some uid; created := created code_data;
               used_at := Some now |} in
          let codes := <[code := code_data]> (ACCESS_CODES g) in
          let users := add_credits uid (code_credits code_data) (USER_DATA g) in
          let '(new_remaining, users) := get_remaining_extractions uid users in
          ((JObj [("success", JBool true);
                  ("credits_added", JInt (code_credits code_data));
                  ("remaining_extractions", JInt new_remaining);
                  ("message", JStr ("Added " ++ str (code_credits code_data)
                                      ++ " extractions to your account!"))], 200%Z),
           sess,
           {| ACCESS_CODES := codes; USER_DATA := users; TEMP_STORAGE := TEMP_STORAGE g |})
    end.

(** The loop of [generate_codes].  [random i] is what the [i]-th round
    draws: [secrets.token_hex(2)], [secrets.randbelow(9000)] and
    [datetime.now().isoformat()]. *)
Fixpoint new_codes_loop (random : nat -> string * Z * string) (credits_per_code : Z)
    (rounds : list nat) (codes : gmap string code_data) (new_codes : list string)
    : gmap string code_data * list string :=
  match rounds with
  | [] => (codes, new_codes)
  | i :: rounds' =>
      let '(hex, below, now) := random i in
      (* Generate a readable code like "DD17-ABCD-1234" *)
      let code := "DD17-" ++ upper hex ++ "-" ++ str (below + 1000) in
      let codes :=
        <[code := {| code_credits := credits_per_code; used := false; used_by := None;
                     created := now; used_at := None |}]> codes in
      new_codes_loop random credits_per_code rounds' codes (new_codes ++ [code])%list
  end.

(** [/admin/generate-codes]: generate new access codes (admin only).  The
    arguments are the values under ['password'], ['num_codes'] and
    ['credits'] in the request body, when present. *)
Definition generate_codes (random : nat -> string * Z * string)
    (password : option string) (num_codes credits : option Z) (g : globals)
    : response * globals :=
  let password := default "" password in
  if negb (String.eqb password ADMIN_PASSWORD) then (error "Invalid admin password" 401, g)
  else
    let num_codes := default 1%Z num_codes in
    let credits_per_code := default 25%Z credits in
    if ((num_codes <? 1) || (100 <? num_codes))%Z
    then (error "Number of codes must be between 1 and 100" 400, g)
    else if ((credits_per_code <? 1) || (1000 <? credits_per_code))%Z
    then (error "Credits per code must be between 1 and 1000" 400, g)
    else
      let '(codes, new_codes) :=
        new_codes_loop random credits_per_code (seq 0 (Z.to_nat num_codes))
          (ACCESS_CODES g) [] in
      ((JObj [("success", JBool true);
              ("codes", JArr (JStr <$> new_codes));
              ("credits_per_code", JInt credits_per_code)], 200%Z),
       {| ACCESS_CODES := codes; USER_DATA := USER_DATA g; TEMP_STORAGE := TEMP_STORAGE g |}).

End App.

(** ** The extraction route *)

Section Extract.

Variable FREE_EXTRACTIONS : Z.
Variable ANTHROPIC_API_KEY : string.

Context {image : Type}.
Variable convert_from_path : string -> Z -> vision_extractor.exn + list image.
Variable convert_from_bytes :
  vision_extractor.bytes -> Z -> vision_extractor.exn + list image.
Variable save_png : image -> vision_extractor.bytes.
Variable extract_items_from_image :
  forall (call : nat), vision_extractor.bytes -> string -> Z ->
    list vision_extractor.ExtractedItem.
Variable upper : string -> string.

(** The exception pdf2image raises when handed a value that is not
    [bytes]. *)
Variable not_bytes : temp -> vision_extractor.exn.

(** Truth value of a stored value. *)
Definition temp_truthy (v : temp) : bool :=
  match v with
  | TBytes b => negb (bool_decide (b = []))
  | TStr s => truthy s
  | TInt z => negb (z =? 0)%Z
  | TItems l => negb (bool_decide (length l = 0))
  end.

(** [str(e)] *)
Definition exn_str (e : vision_extractor.exn) : string :=
  match e with
  | vision_extractor.ValueError msg => msg
  | vision_extractor.ConversionError msg => msg
  end.

(** The call [extract_items_from_pdf(api_key=..., pdf_bytes=..., start_page=...,
    end_page=...)] on a stored value. *)
Definition run_extraction (pdf_bytes : temp) (start_page : Z) (end_page : option Z)
    : vision_extractor.exn + list vision_extractor.ExtractedItem :=
  match pdf_bytes with
  | TBytes b =>
      match vision_extractor.extract_items_from_pdf convert_from_path convert_from_bytes
              save_png extract_items_from_image upper
              ANTHROPIC_API_KEY None (Some b) start_page end_page false with
      | inl e => inl e
      | inr (items, _) => inr items
      end
  | v => inl (not_bytes v)
  end.

(** Convert to serializable format. *)
Definition to_items_data (items : list vision_extractor.ExtractedItem) : list item_data :=
  imap (fun i item =>
          {| i_id := Z.of_nat i + 1;
             i_description := vision_extractor.description item;
             i_nsn := vision_extractor.nsn item;
             i_qty := vision_extractor.qty item;
             i_confidence := vision_extractor.confidence item;
             i_notes := vision_extractor.notes item;
             i_unit_of_issue := "EA" |}) items.

Definition item_json (item : item_data) : json :=
  JObj [("id", JInt (i_id item));
        ("description", JStr (i_description item));
        ("nsn", JStr (i_nsn item));
        ("qty", JInt (i_qty item));
        ("confidence", JStr (i_confidence item));
        ("notes", JStr (i_notes item));
        ("unit_of_issue", JStr (i_unit_of_issue item))].

Definition with_users (g : globals) (users : gmap string user_data) : globals :=
  {| ACCESS_CODES := ACCESS_CODES g; USER_DATA := users; TEMP_STORAGE := TEMP_STORAGE g |}.

(** [/extract]: extract items from the uploaded PDF.  [start_page] and
    [end_page] are the integers under these keys in the request body, when
    present. *)
Definition extract_items (uuid : string) (start_page end_page : option Z)
    (sess : session) (g : globals) : response * session * globals :=
  if negb (check_api_configured ANTHROPIC_API_KEY)
  then (error "Service not configured. Please contact administrator." 503, sess, g)
  else
    let '(uid, sess) := get_user_id uuid sess in
    let '(remaining, users) := get_remaining_extractions FREE_EXTRACTIONS uid (USER_DATA g) in
    let g := with_users g users in
    if (remaining <=? 0)%Z
    then ((JObj [("error", JStr "No extractions remaining. Please purchase credits to continue.");
                 ("need_credits", JBool true)], 402%Z), sess, g)
    else
      let start_page := default 0%Z start_page in
      match TEMP_STORAGE g !! (uid ++ "_pdf") with
      | None => (error "No PDF uploaded. Please upload a file first." 400, sess, g)
      | Some pdf_bytes =>
          if negb (temp_truthy pdf_bytes)
          then (error "No PDF uploaded. Please upload a file first." 400, sess, g)
          else
            (* Use one extraction credit *)
            let '(ok, users) := use_extraction FREE_EXTRACTIONS uid (USER_DATA g) in
            let g := with_users g users in
            if negb ok
            then ((JObj [("error", JStr "No extractions remaining.");
                         ("need_credits", JBool true)], 402%Z), sess, g)
            else
              (* Extract items using Claude Vision *)
              match run_extraction pdf_bytes start_page end_page with
              | inr items =>
                  (* Convert to serializable format *)
                  let items_data := to_items_data items in
                  (* Store extracted items *)
                  let g := {| ACCESS_CODES := ACCESS_CODES g; USER_DATA := USER_DATA g;
                              TEMP_STORAGE := <[uid ++ "_items" := TItems items_data]>
                                                (TEMP_STORAGE g) |} in
                  (* Get updated remaining count *)
                  let '(new_remaining, users) :=
                    get_remaining_extractions FREE_EXTRACTIONS uid (USER_DATA g) in
                  let g := with_users g users in
                  ((JObj [("success", JBool true);
                          ("items", JArr (item_json <$> items_data));
                          ("count", JInt (Z.of_nat (length items_data)));
                          ("remaining_extractions", JInt new_remaining)], 200%Z), sess, g)
              | inl e =>
                  (* Refund the credit on error *)
                  let g := with_users g (add_credits uid 1 (USER_DATA g)) in
                  (error ("Extraction failed: " ++ exn_str e) 500, sess, g)
              end
      end.

End Extract.

(** ** From the items of a request to the items of the form *)

(** An item dict of the [/generate] request: the values under
    ['description'], ['nsn'], ['unit_of_issue'] and ['qty'], when present. *)
Record item_fields := {
  get_description : option string;
  get_nsn : option string;
  get_unit_of_issue : option string;
  get_qty : option Z
}.

(** Convert to DD1750Item objects. *)
Definition to_dd1750_items (items_data : list item_fields) : list DD1750Item :=
  imap (fun i item =>
          let qty := default 1%Z (get_qty item) in
          {| line_no := Z.of_nat i + 1;
             description := default "" (get_description item);
             nsn := default "" (get_nsn item);
             unit_of_issue := default "EA" (get_unit_of_issue item);
             initial_qty := qty;
             spares_qty := 0;
             total_qty := qty |}) items_data.

End app.

(** No user owes credits. *)
Definition users_ok (users : gmap string app.user_data) : Prop :=
  forall uid d, users !! uid = Some d -> (0 <= app.credits d)%Z.

(** No user owes credits, and every access code is worth between 1 and
    1000 extractions. *)
Definition credits_ok (g : app.globals) : Prop :=
  users_ok (app.USER_DATA g) /\
  (forall c cd, app.ACCESS_CODES g !! c = Some cd -> (1 <= app.code_credits cd <= 1000)%Z).

(** The access code of one round of [generate_codes]. *)
Definition code_of (upper : string -> string) (draw : string * Z * string) : string :=
  "DD17-" ++ upper draw.1.1 ++ "-" ++ str (draw.1.2 + 1000).

(** [reached_without_reissue ... c g g']: the globals [g'] are reached from
    [g] by any sequence of redemptions, extractions and code generations,
    from any sessions and with any requests, in which no code generation
    issues the code [c] again. *)
Inductive reached_without_reissue (FREE_EXTRACTIONS : Z)
    (ANTHROPIC_API_KEY ADMIN_PASSWORD : string) (strip upper : string -> string)
    (c : string) (g : app.globals) : app.globals -> Prop :=
| reached_here : reached_without_reissue FREE_EXTRACTIONS ANTHROPIC_API_KEY ADMIN_PASSWORD
                   strip upper c g g
| reached_redeem g1 uuid now code sess :
    reached_without_reissue FREE_EXTRACTIONS ANTHROPIC_API_KEY ADMIN_PASSWORD
      strip upper c g g1 ->
    reached_without_reissue FREE_EXTRACTIONS ANTHROPIC_API_KEY ADMIN_PASSWORD
      strip upper c g
      (app.redeem_code FREE_EXTRACTIONS strip upper uuid now code sess g1).2
| reached_extract g1 (image : Type) cfp cfb (png : image -> vision_extractor.bytes)
    vision not_bytes uuid start_page end_page sess :
    reached_without_reissue FREE_EXTRACTIONS ANTHROPIC_API_KEY ADMIN_PASSWORD
      strip upper c g g1 ->
    reached_without_reissue FREE_EXTRACTIONS ANTHROPIC_API_KEY ADMIN_PASSWORD
      strip upper c g
      (app.extract_items FREE_EXTRACTIONS ANTHROPIC_API_KEY cfp cfb png vision upper
         not_bytes uuid start_page end_page sess g1).2
| reached_generate g1 random password num_codes cr :
    reached_without_reissue FREE_EXTRACTIONS ANTHROPIC_API_KEY ADMIN_PASSWORD
      strip upper c g g1 ->
    c ∉ (code_of upper ∘ random <$> seq 0 (Z.to_nat (default 1%Z num_codes))) ->
    reached_without_reissue FREE_EXTRACTIONS ANTHROPIC_API_KEY ADMIN_PASSWORD
      strip upper c g
      (app.generate_codes ADMIN_PASSWORD upper random password num_codes cr g1).2.

(** ** Sample data for the extractor *)

(** A rasteriser that finds three pages, numbered 1 to 3. *)
Definition three_pages : vision_extractor.bytes -> Z -> vision_extractor.exn + list nat :=
  fun _ _ => inr [1; 2; 3].

Definition no_path : string -> Z -> vision_extractor.exn + list nat :=
  fun _ _ => inl (vision_extractor.ConversionError "no such file").

Definition page_tag (n : nat) : vision_extractor.bytes := replicate n Byte.x00.

(** A service that reads the same wrench on every page, one more each time. *)
Definition sees_wrench (call : nat) (img : vision_extractor.bytes) (api_key : string)
    (page_num : Z) : list vision_extractor.ExtractedItem :=
  [ {| vision_extractor.description := "Wrench, adjustable";
       vision_extractor.nsn := "123456789";
       vision_extractor.qty := page_num;
       vision_extractor.confidence := "high";
       vision_extractor.notes := "" |} ].

Definition some_pdf : vision_extractor.bytes := [Byte.x25; Byte.x50; Byte.x44; Byte.x46].

Definition two_tools : list vision_extractor.ExtractedItem :=
  [ {| vision_extractor.description := "HAMMER"; vision_extractor.nsn := "";
       vision_extractor.qty := 1; vision_extractor.confidence := "high";
       vision_extractor.notes := "" |};
    {| vision_extractor.description := "PLIERS"; vision_extractor.nsn := "";
       vision_extractor.qty := 2; vision_extractor.confidence := "low";
       vision_extractor.notes := "" |} ].

(** ** Sample data for the application *)

Definition alice : app.user_data :=
  {| app.extractions_used := 3; app.credits := 2; app.total_paid := 0 |}.

Definition bob : app.user_data :=
  {| app.extractions_used := 3; app.credits := 0; app.total_paid := 0 |}.

Definition a_code : app.code_data :=
  {| app.code_credits := 25; app.used := false; app.used_by := None;
     app.created := "2024-05-01T08:00:00"; app.used_at := None |}.

Definition some_globals : app.globals :=
  {| app.ACCESS_CODES := {["DD17-ABCD-1234" := a_code]};
     app.USER_DATA := <["alice" := alice]> {["bob" := bob]};
     app.TEMP_STORAGE := <["alice_pdf" := app.TBytes some_pdf]>
                           {["bob_pdf" := app.TBytes some_pdf]} |}.

Definition no_globals : app.globals :=
  {| app.ACCESS_CODES := ∅; app.USER_DATA := ∅; app.TEMP_STORAGE := ∅ |}.

Definition session_of (uid : string) : app.session :=
  {| app.user_id := Some uid; app.permanent := true |}.

Definition new_session : app.session :=
  {| app.user_id := None; app.permanent := false |}.

Definition some_draws : nat -> string * Z * string :=
  fun i => ("0a1b", 234 + Z.of_nat i, "2024-05-02T09:00:00")%Z.

Definition type_error : app.temp -> vision_extractor.exn :=
  fun _ => vision_extractor.ConversionError "a bytes-like object is required".

(** The extraction route with three free extractions and the sample
    rasteriser and vision service. *)
Definition some_route :=
  app.extract_items 3 "sk-key" no_path three_pages page_tag sees_wrench id type_error.

(** The sample globals after a redemption of the sample code by a new
    user, an extraction by alice and a generation of two other codes. *)
Definition after_some_requests : app.globals :=
  (app.generate_codes "secret" id some_draws (Some "secret") (Some 2%Z) None
     (some_route "u-9" None None (session_of "alice")
        (app.redeem_code 3 id id "u-1" "2024-05-02T10:00:00" (Some "DD17-ABCD-1234")
           new_session some_globals).2).2).2.

Definition bolt : app.item_fields :=
  {| app.get_description := Some "BOLT, MACHINE"; app.get_nsn := None;
     app.get_unit_of_issue := None; app.get_qty := Some 4%Z |}.

(** * Properties *)

(** ** The code on concrete inputs *)

Example row_h_val : ROW_H = 29.25%float.
Proof. reflexivity. Qed.

Example hx_val : HEADER_X !!! "page_num" = 500.0%float.
Proof. vm_compute. reflexivity. Qed.

Example str_vals : str 0 = "0" /\ str 12 = "12" /\ str (-7) = "-7".
Proof. repeat split. Qed.

(** One item and no header: the page numbers, then the row. *)
Example wrench_texts :
  d_text <$> overlay_ops [wrench] None 0
  = ["1"; "1"; "1"; "WRENCH, ADJUSTABLE: 12 IN."; "NSN: 123456789"; "EA"; "2"; "0"; "2"].
Proof. vm_compute. reflexivity. Qed.

Example wrench_anchor :
  (d_y <$> overlay_ops [wrench] None 0) !! 2 = Some 604.0%float /\
  (d_y <$> overlay_ops [wrench] None 0) !! 4 = Some 594.0%float.
Proof. vm_compute. split; reflexivity. Qed.

(** Nineteen items: eighteen on the first page, one on the second. *)
Example nineteen_items :
  length <$> (page_items (replicate 19 wrench) <$> seq 0 (total_pages (replicate 19 wrench)))
  = [18; 1].
Proof. vm_compute. reflexivity. Qed.

Example nineteen_items_page_2 :
  take 2 (d_text <$> overlay_ops (replicate 19 wrench) None 1) = ["2"; "2"].
Proof. vm_compute. reflexivity. Qed.

(** A fault at the second read: the call raises and nothing is at the
    output path. *)
Example second_read_fails_run :
  let '(w', r) := generate_dd1750 second_read_fails (replicate 19 wrench)
                    "blank_1750.pdf" "out.pdf" None disk in
  r = inl OSError /\ files w' !! "out.pdf" = None.
Proof. vm_compute. split; reflexivity. Qed.

(** A missing template. *)
Example missing_template_run :
  (generate_dd1750 no_fault [wrench] "nowhere.pdf" "out.pdf" None disk).2
  = inl FileNotFoundError.
Proof. vm_compute. reflexivity. Qed.

(** ** Arithmetic of the page count *)

Lemma ceil_div_bounds (n : nat) :
  n <= ROWS_PER_PAGE * ceil_div n ROWS_PER_PAGE < n + ROWS_PER_PAGE.
Proof.
  unfold ceil_div, ROWS_PER_PAGE.
  pose proof (Nat.div_mod_eq (n + (18 - 1)) 18) as E.
  pose proof (Nat.mod_upper_bound (n + (18 - 1)) 18 ltac:(lia)) as U.
  lia.
Qed.

Lemma ceil_div_unique (n p : nat) :
  n <= ROWS_PER_PAGE * p -> ROWS_PER_PAGE * p < n + ROWS_PER_PAGE ->
  p = ceil_div n ROWS_PER_PAGE.
Proof.
  intros Hlo Hhi. pose proof (ceil_div_bounds n) as B.
  unfold ROWS_PER_PAGE in *. lia.
Qed.

Lemma total_pages_pos (items : list DD1750Item) :
  items <> [] -> 0 < total_pages items.
Proof.
  intros Hne. unfold total_pages.
  pose proof (ceil_div_bounds (length items)) as B.
  destruct items as [|x l]; [congruence|]. simpl length in *.
  unfold ROWS_PER_PAGE in *. lia.
Qed.

(** ** Slices *)

Lemma page_items_chunk (items : list DD1750Item) (k : nat) :
  page_items items k = take ROWS_PER_PAGE (drop (k * ROWS_PER_PAGE) items).
Proof.
  unfold page_items, slice.
  destruct (Nat.le_gt_cases ((k + 1) * ROWS_PER_PAGE) (length items)) as [Hle|Hgt].
  - rewrite Nat.min_l by lia. f_equal. lia.
  - rewrite Nat.min_r by lia.
    rewrite !take_ge; [reflexivity| |]; rewrite length_drop; lia.
Qed.

Lemma concat_chunks {A} (c : nat) (l : list A) (p : nat) :
  concat (map (fun k => take c (drop (k * c) l)) (seq 0 p)) = take (p * c) l.
Proof.
  induction p as [|p IH].
  - reflexivity.
  - rewrite seq_S, map_app, concat_app, IH. simpl.
    rewrite app_nil_r, take_take_drop. f_equal. lia.
Qed.

Lemma sum_lengths_concat {A} (ls : list (list A)) :
  sum_list (length <$> ls) = length (concat ls).
Proof.
  induction ls as [|s ss IH]; [reflexivity|].
  rewrite fmap_cons. change (length s + sum_list (length <$> ss) = length (s ++ concat ss)).
  rewrite length_app, IH. reflexivity.
Qed.

Lemma imap_seq_diag {B} (f : nat -> nat -> B) (n : nat) :
  imap f (seq 0 n) = map (fun k => f k k) (seq 0 n).
Proof.
  induction n as [|n IH]; [reflexivity|].
  rewrite seq_S, imap_app, map_app, IH, length_seq. simpl.
  rewrite Nat.add_0_r. reflexivity.
Qed.

Lemma page_items_concat (items : list DD1750Item) :
  concat (map (page_items items) (seq 0 (total_pages items))) = items.
Proof.
  rewrite (map_ext _ (fun k => take ROWS_PER_PAGE (drop (k * ROWS_PER_PAGE) items)))
    by (intros k; apply page_items_chunk).
  rewrite concat_chunks. apply take_ge.
  pose proof (ceil_div_bounds (length items)). unfold total_pages. lia.
Qed.

Lemma page_items_length (items : list DD1750Item) (k : nat) :
  k < total_pages items ->
  0 < length (page_items items k) <= ROWS_PER_PAGE.
Proof.
  intros Hk. rewrite page_items_chunk, length_take, length_drop.
  pose proof (ceil_div_bounds (length items)) as B. unfold total_pages in Hk.
  unfold ROWS_PER_PAGE in *. lia.
Qed.

Lemma page_items_lookup (items : list DD1750Item) (k i : nat) :
  i < ROWS_PER_PAGE ->
  page_items items k !! i = items !! (k * ROWS_PER_PAGE + i).
Proof.
  intros Hi. rewrite page_items_chunk, lookup_take_lt by exact Hi.
  apply lookup_drop.
Qed.

(** ** Drawing: what a canvas method adds *)

Lemma ops_setFont name size can : ops (setFont name size can) = ops can.
Proof. reflexivity. Qed.

Lemma enumerate_snoc {A} (l : list A) (x : A) :
  enumerate (l ++ [x]) = (enumerate l ++ [(length l, x)])%list.
Proof.
  unfold enumerate. rewrite length_app, Nat.add_comm. simpl length.
  rewrite seq_S. simpl. rewrite zip_with_app by (rewrite length_seq; reflexivity).
  reflexivity.
Qed.


Lemma fold_enumerate_ops (f : canvas -> nat -> DD1750Item -> canvas)
    (g : nat -> DD1750Item -> list draw) :
  (forall can i item, ops (f can i item) = (ops can ++ g i item)%list) ->
  forall l can,
    ops (fold_left (fun can '(i, item) => f can i item) (enumerate l) can)
    = (ops can ++ concat (imap g l))%list.
Proof.
  intros Hf l. induction l as [|x l IH] using rev_ind; intros can.
  - simpl. rewrite app_nil_r. reflexivity.
  - rewrite enumerate_snoc, fold_left_app. simpl.
    rewrite Hf, IH, imap_app, concat_app. simpl.
    rewrite Nat.add_0_r, !app_nil_r, app_assoc. reflexivity.
Qed.

(** The values of the header coordinate tables. *)
Lemma HEADER_X_packed_by : HEADER_X !!! "packed_by" = 95.0%float.
Proof. vm_compute. reflexivity. Qed.
Lemma HEADER_X_no_boxes : HEADER_X !!! "no_boxes" = 240.0%float.
Proof. vm_compute. reflexivity. Qed.
Lemma HEADER_X_req_no : HEADER_X !!! "req_no" = 370.0%float.
Proof. vm_compute. reflexivity. Qed.
Lemma HEADER_X_order_no : HEADER_X !!! "order_no" = 370.0%float.
Proof. vm_compute. reflexivity. Qed.
Lemma HEADER_X_end_item : HEADER_X !!! "end_item" = 95.0%float.
Proof. vm_compute. reflexivity. Qed.
Lemma HEADER_X_date : HEADER_X !!! "date" = 500.0%float.
Proof. vm_compute. reflexivity. Qed.
Lemma HEADER_X_page_num : HEADER_X !!! "page_num" = 500.0%float.
Proof. vm_compute. reflexivity. Qed.
Lemma HEADER_X_page_total : HEADER_X !!! "page_total" = 545.0%float.
Proof. vm_compute. reflexivity. Qed.
Lemma HEADER_Y_packed_by : HEADER_Y !!! "packed_by" = 735.0%float.
Proof. vm_compute. reflexivity. Qed.
Lemma HEADER_Y_no_boxes : HEADER_Y !!! "no_boxes" = 735.0%float.
Proof. vm_compute. reflexivity. Qed.
Lemma HEADER_Y_req_no : HEADER_Y !!! "req_no" = 735.0%float.
Proof. vm_compute. reflexivity. Qed.
Lemma HEADER_Y_order_no : HEADER_Y !!! "order_no" = 710.0%float.
Proof. vm_compute. reflexivity. Qed.
Lemma HEADER_Y_end_item : HEADER_Y !!! "end_item" = 685.0%float.
Proof. vm_compute. reflexivity. Qed.
Lemma HEADER_Y_date : HEADER_Y !!! "date" = 685.0%float.
Proof. vm_compute. reflexivity. Qed.
Lemma HEADER_Y_page : HEADER_Y !!! "page" = 660.0%float.
Proof. vm_compute. reflexivity. Qed.

Create Rewrite HintDb layout.
#[global] Hint Rewrite
  HEADER_X_packed_by HEADER_X_no_boxes HEADER_X_req_no HEADER_X_order_no
  HEADER_X_end_item HEADER_X_date HEADER_X_page_num HEADER_X_page_total
  HEADER_Y_packed_by HEADER_Y_no_boxes HEADER_Y_req_no HEADER_Y_order_no
  HEADER_Y_end_item HEADER_Y_date HEADER_Y_page : layout.

Ltac canvas_steps :=
  cbn [orb ops setFont drawString drawCentredString emit font_name font_size pagesize
       when_present app];
  rewrite <- ?app_assoc; cbn [app].

Lemma draw_item_ops (can : canvas) (i : nat) (item : DD1750Item) :
  ops (draw_item (Y_TABLE_TOP_LINE - 5.0)%float can i item)
  = (ops can ++ spec_row i item)%list.
Proof.
  unfold draw_item, spec_row, spec_row_anchor, spec_description, when_present.
  rewrite Nat.ltb_antisym.
  destruct (String.length (description item) <=? 50)%nat;
    destruct (truthy (nsn item)); canvas_steps; reflexivity.
Qed.

Lemma _draw_header_ops (can : canvas) (h : DD1750Header) (page_num total : nat) :
  ops (_draw_header can h page_num total)
  = (ops can ++ spec_header_fields h ++ spec_page_number page_num total
       ++ spec_certifier h)%list.
Proof.
  unfold _draw_header, spec_header_fields, spec_page_number, spec_certifier, when_present.
  autorewrite with layout.
  destruct (truthy (packed_by h)), (truthy (no_boxes h)), (truthy (requisition_no h)),
    (truthy (order_no h)), (truthy (end_item h)), (truthy (date h)),
    (truthy (certifier_name h)), (truthy (certifier_title h));
    canvas_steps; reflexivity.
Qed.

Lemma draw_page_header_ops (can : canvas) (header : option DD1750Header) (page_num total : nat) :
  ops (draw_page_header can header page_num total)
  = (ops can ++ spec_page_header header (page_num + 1) total)%list.
Proof.
  destruct header as [h|]; simpl.
  - apply _draw_header_ops.
  - unfold spec_page_number. autorewrite with layout. canvas_steps. reflexivity.
Qed.

Lemma overlay_ops_eq (items : list DD1750Item) (header : option DD1750Header) (k : nat) :
  overlay_ops items header k
  = (spec_page_header header (k + 1) (total_pages items)
       ++ concat (imap spec_row (page_items items k)))%list.
Proof.
  unfold overlay_ops, draw_overlay.
  rewrite (fold_enumerate_ops _ spec_row) by (intros; apply draw_item_ops).
  rewrite draw_page_header_ops. reflexivity.
Qed.

(** ** File operations *)

Section RendererFacts.

Variable fault : nat -> bool.

Lemma bind_inr {A B} (m : IO A) (k : A -> IO B) w w' a :
  m w = (w', inr a) -> bind m k w = k a w'.
Proof. intros E. unfold bind. rewrite E. reflexivity. Qed.

Lemma bind_inl {A B} (m : IO A) (k : A -> IO B) w w' e :
  m w = (w', inl e) -> bind m k w = (w', inl e).
Proof. intros E. unfold bind. rewrite E. reflexivity. Qed.

Lemma open_file_ok w : fault (clock w) = false -> open_file fault w = (tick w, inr tt).
Proof. intros E. unfold open_file. rewrite E. reflexivity. Qed.

Lemma open_file_fault w : fault (clock w) = true -> open_file fault w = (tick w, inl OSError).
Proof. intros E. unfold open_file. rewrite E. reflexivity. Qed.

Lemma PdfReader_ok path d w :
  fault (clock w) = false -> files w !! path = Some (PdfFile d) ->
  PdfReader fault path w = (tick w, inr d).
Proof.
  intros Ef El. unfold PdfReader. rewrite (bind_inr _ _ _ _ _ (open_file_ok w Ef)).
  simpl. rewrite El. reflexivity.
Qed.

Lemma PdfReader_fault path w :
  fault (clock w) = true -> PdfReader fault path w = (tick w, inl OSError).
Proof.
  intros Ef. unfold PdfReader. apply bind_inl, open_file_fault, Ef.
Qed.

(** A reader never touches the store and takes one step of the clock. *)
Lemma PdfReader_world path w :
  (PdfReader fault path w).1 = tick w.
Proof.
  unfold PdfReader, bind, open_file.
  destruct (fault (clock w)); [reflexivity|]. simpl.
  destruct (files w !! path) as [[d|r]|]; reflexivity.
Qed.

Lemma PdfReader_inv path w w' d :
  PdfReader fault path w = (w', inr d) ->
  fault (clock w) = false /\ files w !! path = Some (PdfFile d) /\ w' = tick w.
Proof.
  unfold PdfReader, bind, open_file.
  destruct (fault (clock w)); [discriminate|]. simpl.
  destruct (files w !! path) as [[d'|r]|]; intros E; inversion E; subst; auto.
Qed.

Lemma write_to_ok path doc w :
  fault (clock w) = false ->
  write_to fault path doc w
  = ({| files := <[path := PdfFile doc]> (files w); clock := S (clock w) |}, inr tt).
Proof.
  intros Ef. unfold write_to. rewrite (bind_inr _ _ _ _ _ (open_file_ok w Ef)). reflexivity.
Qed.

Lemma write_to_fault path doc w :
  fault (clock w) = true -> write_to fault path doc w = (tick w, inl OSError).
Proof.
  intros Ef. unfold write_to. apply bind_inl, open_file_fault, Ef.
Qed.

(** *** One page *)

Lemma compose_page_ok items path header total writer k w t0 rest :
  fault (clock w) = false -> files w !! path = Some (PdfFile (t0 :: rest)) ->
  compose_page fault items path header total writer k w
  = (tick w, inr (writer ++ [composed items header total t0 k])%list).
Proof.
  intros Ef El. unfold compose_page.
  rewrite (bind_inr _ _ _ _ _ (PdfReader_ok _ _ _ Ef El)). reflexivity.
Qed.

Lemma compose_page_world items path header total writer k w :
  (compose_page fault items path header total writer k w).1 = tick w.
Proof.
  unfold compose_page. unfold bind at 1.
  pose proof (PdfReader_world path w) as Hw.
  destruct (PdfReader fault path w) as [w1 [e|d]]; simpl in Hw; subst w1; [reflexivity|].
  destruct d as [|p d]; reflexivity.
Qed.

Lemma compose_page_inv items path header total writer k w w' writer' :
  compose_page fault items path header total writer k w = (w', inr writer') ->
  fault (clock w) = false /\
  exists t0 rest, files w !! path = Some (PdfFile (t0 :: rest)).
Proof.
  unfold compose_page. unfold bind at 1.
  destruct (PdfReader fault path w) as [w1 [e|d]] eqn:ER; [discriminate|].
  apply PdfReader_inv in ER as (Ef & El & ->).
  destruct d as [|p d]; [discriminate|]. intros _. eauto.
Qed.

(** *** The page loop *)

Lemma for_pages_ok items path header total t0 rest range :
  forall writer w,
    (forall j, j < length range -> fault (clock w + j) = false) ->
    files w !! path = Some (PdfFile (t0 :: rest)) ->
    for_pages fault items path header total range writer w
    = (advance (length range) w,
       inr (writer ++ map (composed items header total t0) range)%list).
Proof.
  induction range as [|k range IH]; intros writer w Hf El.
  - simpl. unfold ret, advance. rewrite app_nil_r, Nat.add_0_r.
    destruct w; reflexivity.
  - simpl for_pages.
    assert (Hf0 : fault (clock w) = false).
    { specialize (Hf 0). rewrite Nat.add_0_r in Hf. apply Hf. simpl. lia. }
    rewrite (bind_inr _ _ _ _ _ (compose_page_ok _ _ _ _ _ _ _ _ _ Hf0 El)).
    rewrite IH.
    + unfold advance, tick. simpl. rewrite <- app_assoc. simpl.
      repeat f_equal. lia.
    + intros j Hj. simpl. replace (S (clock w + j)) with (clock w + S j) by lia.
      apply Hf. simpl. lia.
    + exact El.
Qed.

(** The loop never writes to the store, whatever its outcome. *)
Lemma for_pages_files items path header total range :
  forall writer w,
    files (for_pages fault items path header total range writer w).1 = files w.
Proof.
  induction range as [|k range IH]; intros writer w.
  - reflexivity.
  - simpl for_pages. unfold bind.
    pose proof (compose_page_world items path header total writer k w) as Hw.
    destruct (compose_page fault items path header total writer k w) as [w1 [e|wr]];
      simpl in Hw; subst w1.
    + reflexivity.
    + rewrite IH. reflexivity.
Qed.

(** When the loop ends normally, every one of its template reads succeeded. *)
Lemma for_pages_inv items path header total range :
  forall writer w w' writer',
    for_pages fault items path header total range writer w = (w', inr writer') ->
    (forall j, j < length range -> fault (clock w + j) = false) /\
    (range <> [] -> exists t0 rest, files w !! path = Some (PdfFile (t0 :: rest))).
Proof.
  induction range as [|k range IH]; intros writer w w' writer' E.
  - split; [simpl; lia | congruence].
  - simpl for_pages in E. unfold bind in E.
    pose proof (compose_page_world items path header total writer k w) as Hw.
    destruct (compose_page fault items path header total writer k w) as [w1 [e|wr]] eqn:EC;
      simpl in Hw; subst w1; [discriminate|].
    apply compose_page_inv in EC as [Hf0 Ht].
    apply IH in E as [Hf _]. split; [|intros _; exact Ht].
    intros [|j] Hj.
    + rewrite Nat.add_0_r. exact Hf0.
    + replace (clock w + S j) with (clock (tick w) + j) by (simpl; lia).
      apply Hf. simpl in Hj. lia.
Qed.

(** *** The whole function *)

Lemma generate_dd1750_empty path out header w t0 rest :
  fault (clock w) = false -> fault (S (clock w)) = false ->
  files w !! path = Some (PdfFile (t0 :: rest)) ->
  generate_dd1750 fault [] path out header w
  = ({| files := <[out := PdfFile [t0]]> (files w); clock := S (S (clock w)) |},
     inr (out, 0)).
Proof.
  intros Ef0 Ef1 El. unfold generate_dd1750.
  rewrite (bind_inr _ _ _ _ _ (PdfReader_ok _ _ _ Ef0 El)).
  simpl pages_at. unfold ret at 1.
  rewrite (bind_inr _ _ (tick w) (tick w) t0) by reflexivity.
  rewrite (bind_inr _ _ _ _ _ (write_to_ok _ _ (tick w) Ef1)).
  reflexivity.
Qed.

Lemma generate_dd1750_pages items path out header w t0 rest :
  items <> [] ->
  (forall j, j <= total_pages items -> fault (clock w + j) = false) ->
  files w !! path = Some (PdfFile (t0 :: rest)) ->
  generate_dd1750 fault items path out header w
  = ({| files := <[out := PdfFile
                    (map (composed items header (total_pages items) t0)
                       (seq 0 (total_pages items)))]> (files w);
        clock := S (clock w + total_pages items) |},
     inr (out, length items)).
Proof.
  intros Hne Hf El. destruct items as [|x l]; [congruence|].
  unfold generate_dd1750. fold (total_pages (x :: l)).
  set (n := total_pages (x :: l)) in *.
  rewrite (bind_inr _ _ _ _ _
    (for_pages_ok (x :: l) path header n t0 rest (seq 0 n) PdfWriter w
       ltac:(intros j Hj; rewrite length_seq in Hj; apply Hf; lia) El)).
  rewrite length_seq. unfold PdfWriter. rewrite app_nil_l.
  rewrite (bind_inr _ _ _ _ _ (write_to_ok _ _ (advance n w) ltac:(apply Hf; lia))).
  reflexivity.
Qed.

(** A failed call leaves the store as it was. *)
Lemma generate_dd1750_inl_files items path out header w w' e :
  generate_dd1750 fault items path out header w = (w', inl e) ->
  files w' = files w.
Proof.
  unfold generate_dd1750. destruct items as [|x l].
  - unfold bind at 1.
    pose proof (PdfReader_world path w) as Hw.
    destruct (PdfReader fault path w) as [w1 [e1|d]]; simpl in Hw; subst w1.
    + intros E; inversion E; reflexivity.
    + destruct d as [|p d]; simpl.
      * intros E; inversion E; reflexivity.
      * unfold bind, write_to, bind, open_file, ret. simpl.
        destruct (fault (S (clock w))); intros E; inversion E; reflexivity.
  - set (n := ceil_div (length (x :: l)) ROWS_PER_PAGE). unfold bind at 1.
    pose proof (for_pages_files (x :: l) path header n (seq 0 n) PdfWriter w) as Hw.
    destruct (for_pages fault (x :: l) path header n (seq 0 n) PdfWriter w) as [w1 [e1|wr]];
      simpl in Hw.
    + intros E; inversion E; subst; exact Hw.
    + unfold bind, write_to, bind, open_file, ret. simpl.
      destruct (fault (clock w1)); intros E; inversion E; subst; exact Hw.
Qed.

(** A call that returns normally has read the template and written
    [rendered] to the output path, and nothing else. *)
Lemma generate_dd1750_inr_inv items path out header w w' r :
  generate_dd1750 fault items path out header w = (w', inr r) ->
  exists t0 rest,
    files w !! path = Some (PdfFile (t0 :: rest)) /\
    r = (out, length items) /\
    files w' = <[out := PdfFile (rendered items header t0)]> (files w).
Proof.
  unfold generate_dd1750. destruct items as [|x l].
  - unfold bind at 1.
    destruct (PdfReader fault path w) as [w1 [e1|d]] eqn:ER; [discriminate|].
    apply PdfReader_inv in ER as (Ef & El & ->).
    destruct d as [|p d]; [discriminate|]. simpl pages_at.
    unfold bind, write_to, bind, open_file, ret. simpl.
    destruct (fault (S (clock w))); [discriminate|].
    intros E; inversion E; subst. exists p, d. auto.
  - fold (total_pages (x :: l)). set (n := total_pages (x :: l)).
    unfold bind at 1.
    destruct (for_pages fault (x :: l) path header n (seq 0 n) PdfWriter w)
      as [w1 [e1|wr]] eqn:EF; [discriminate|].
    pose proof EF as EF'.
    apply for_pages_inv in EF' as [Hf Ht].
    destruct Ht as (t0 & rest & El).
    { pose proof (total_pages_pos (x :: l) ltac:(congruence)) as Hp.
      fold n in Hp. destruct n; [lia|]. simpl. congruence. }
    rewrite (for_pages_ok _ _ _ _ t0 rest _ _ _ Hf El) in EF.
    inversion EF; subst w1 wr; clear EF.
    unfold bind, write_to, bind, open_file, ret. simpl.
    destruct (fault (clock w + length (seq 0 n))); [discriminate|].
    intros E; inversion E; subst. exists t0, rest. auto.
Qed.

End RendererFacts.

(** * The renderer against its specification *)

Lemma rendered_length items header t0 :
  length (rendered items header t0) = Nat.max 1 (total_pages items).
Proof.
  destruct items as [|x l]; [reflexivity|].
  unfold rendered. rewrite length_map, length_seq.
  pose proof (total_pages_pos (x :: l) ltac:(congruence)). lia.
Qed.

(** A call on a readable one-page-or-more template, with no outside fault,
    returns normally and writes [rendered]. *)
Lemma generate_dd1750_total fault items path out header w t0 rest :
  (forall t, fault t = false) ->
  files w !! path = Some (PdfFile (t0 :: rest)) ->
  exists w',
    generate_dd1750 fault items path out header w = (w', inr (out, length items)) /\
    files w' = <[out := PdfFile (rendered items header t0)]> (files w).
Proof.
  intros Hf El. destruct items as [|x l].
  - rewrite (generate_dd1750_empty fault path out header w t0 rest) by auto.
    eexists; split; reflexivity.
  - rewrite (generate_dd1750_pages fault (x :: l) path out header w t0 rest)
      by (auto; congruence).
    eexists; split; reflexivity.
Qed.

(** C1. For every list of N >= 0 items, a call on a readable template
    returns normally and the document it writes has [max 1 p] pages, where
    [p] is the ceiling of N/18 (the one [p] with [N <= 18 p < N + 18]);
    18 items give 1 page and 19 items give 2 pages. *)
Theorem generate_dd1750_page_count fault items path out header w t0 rest :
  (forall t, fault t = false) ->
  files w !! path = Some (PdfFile (t0 :: rest)) ->
  exists w' doc p,
    generate_dd1750 fault items path out header w = (w', inr (out, length items)) /\
    files w' !! out = Some (PdfFile doc) /\
    length items <= 18 * p < length items + 18 /\
    length doc = Nat.max 1 p /\
    (length items = 18 -> length doc = 1) /\
    (length items = 19 -> length doc = 2).
Proof.
  intros Hf El.
  destruct (generate_dd1750_total fault items path out header w t0 rest Hf El)
    as (w' & E & Hw).
  exists w', (rendered items header t0), (total_pages items).
  pose proof (ceil_div_bounds (length items)) as B.
  fold (total_pages items) in B. unfold ROWS_PER_PAGE in B.
  rewrite rendered_length.
  repeat split; try lia.
  - exact E.
  - rewrite Hw. apply lookup_insert_eq.
Qed.

Lemma generate_dd1750_page_count_witness :
  exists w' doc p,
    generate_dd1750 no_fault (replicate 19 wrench) "blank_1750.pdf" "out.pdf" None disk
      = (w', inr ("out.pdf", length (replicate 19 wrench))) /\
    files w' !! "out.pdf" = Some (PdfFile doc) /\
    length (replicate 19 wrench) <= 18 * p < length (replicate 19 wrench) + 18 /\
    length doc = Nat.max 1 p /\
    (length (replicate 19 wrench) = 18 -> length doc = 1) /\
    (length (replicate 19 wrench) = 19 -> length doc = 2).
Proof.
  apply (generate_dd1750_page_count no_fault (replicate 19 wrench)
           "blank_1750.pdf" "out.pdf" None disk blank_form []).
  - intros t. reflexivity.
  - vm_compute. reflexivity.
Defined.

(** C2. Pagination cuts the list into contiguous slices in the original
    order: the slices of pages 0, 1, ... concatenated give back the input,
    their lengths add up to the input length, slice [k] is the 18 items from
    index [18 k] on (so row [i] of page [k] holds item [18 k + i] and no
    other page does), and the written document has, on page [k], the rows
    of slice [k] in order. *)
Theorem pagination_partitions fault items path out header w t0 rest :
  (forall t, fault t = false) ->
  files w !! path = Some (PdfFile (t0 :: rest)) ->
  let slices := map (page_items items) (seq 0 (total_pages items)) in
  concat slices = items /\
  sum_list (length <$> slices) = length items /\
  (forall k, page_items items k = take 18 (drop (k * 18) items)) /\
  (forall k i, i < 18 -> page_items items k !! i = items !! (k * 18 + i)) /\
  (forall k, k < total_pages items -> 0 < length (page_items items k) <= 18) /\
  exists w' doc,
    generate_dd1750 fault items path out header w = (w', inr (out, length items)) /\
    files w' !! out = Some (PdfFile doc) /\
    (items = [] -> doc = [t0]) /\
    (items <> [] ->
     doc = imap (fun k slice =>
                   (t0 ++ (Text <$> (spec_page_header header (k + 1) (length slices)
                                       ++ concat (imap spec_row slice))))%list) slices).
Proof.
  intros Hf El slices.
  assert (Hc : concat slices = items) by apply page_items_concat.
  split; [exact Hc|]. split.
  { rewrite sum_lengths_concat, Hc. reflexivity. }
  split; [intros k; apply page_items_chunk|].
  split; [intros k i Hi; apply page_items_lookup; exact Hi|].
  split; [intros k Hk; apply page_items_length; exact Hk|].
  destruct (generate_dd1750_total fault items path out header w t0 rest Hf El)
    as (w' & E & Hw).
  exists w', (rendered items header t0).
  split; [exact E|]. split; [rewrite Hw; apply lookup_insert_eq|].
  split.
  - intros ->. reflexivity.
  - intros Hne. destruct items as [|x l]; [congruence|].
    unfold rendered, slices. rewrite length_map, length_seq.
    rewrite imap_fmap, imap_seq_diag.
    apply map_ext. intros k. simpl. rewrite overlay_ops_eq. reflexivity.
Qed.

Lemma pagination_partitions_witness :
  let items := replicate 19 wrench in
  let slices := map (page_items items) (seq 0 (total_pages items)) in
  concat slices = items /\
  sum_list (length <$> slices) = length items /\
  (forall k, page_items items k = take 18 (drop (k * 18) items)) /\
  (forall k i, i < 18 -> page_items items k !! i = items !! (k * 18 + i)) /\
  (forall k, k < total_pages items -> 0 < length (page_items items k) <= 18) /\
  exists w' doc,
    generate_dd1750 no_fault items "blank_1750.pdf" "out.pdf" None disk
      = (w', inr ("out.pdf", length items)) /\
    files w' !! "out.pdf" = Some (PdfFile doc) /\
    (items = [] -> doc = [blank_form]) /\
    (items <> [] ->
     doc = imap (fun k slice =>
                   (blank_form ++ (Text <$> (spec_page_header None (k + 1) (length slices)
                                       ++ concat (imap spec_row slice))))%list) slices).
Proof.
  apply (pagination_partitions no_fault (replicate 19 wrench)
           "blank_1750.pdf" "out.pdf" None disk blank_form []).
  - intros t. reflexivity.
  - vm_compute. reflexivity.
Defined.

(** C3. On the empty list a call writes a one-page document whose page is
    the template's page itself: nothing is merged onto it and nothing is
    drawn, whatever header is passed; the reported item count is 0. *)
Theorem generate_dd1750_empty_list fault path out header w t0 rest :
  fault (clock w) = false -> fault (S (clock w)) = false ->
  files w !! path = Some (PdfFile (t0 :: rest)) ->
  exists w',
    generate_dd1750 fault [] path out header w = (w', inr (out, 0)) /\
    files w' = <[out := PdfFile [t0]]> (files w) /\
    files w' !! out = Some (PdfFile [t0]).
Proof.
  intros Ef0 Ef1 El.
  rewrite (generate_dd1750_empty fault path out header w t0 rest Ef0 Ef1 El).
  eexists. split; [reflexivity|]. split; [reflexivity|]. simpl.
  apply lookup_insert_eq.
Qed.

Lemma generate_dd1750_empty_list_witness :
  exists w',
    generate_dd1750 no_fault [] "blank_1750.pdf" "out.pdf" (Some full_header) disk
      = (w', inr ("out.pdf", 0)) /\
    files w' = <["out.pdf" := PdfFile [blank_form]]> (files disk) /\
    files w' !! "out.pdf" = Some (PdfFile [blank_form]).
Proof.
  apply (generate_dd1750_empty_list no_fault "blank_1750.pdf" "out.pdf"
           (Some full_header) disk blank_form []).
  - reflexivity.
  - reflexivity.
  - vm_compute. reflexivity.
Defined.

(** ** Prefixes of strings *)

Lemma substring_0_length (n : nat) (s : string) :
  String.length (substring 0 n s) = Nat.min n (String.length s).
Proof.
  revert s. induction n as [|n IH]; intros [|c s]; simpl; try reflexivity.
  rewrite IH. reflexivity.
Qed.

Lemma substring_0_prefix (n : nat) (s : string) :
  exists rest, s = substring 0 n s ++ rest.
Proof.
  revert s. induction n as [|n IH]; intros [|c s]; simpl.
  - exists "". reflexivity.
  - exists (String c s). reflexivity.
  - exists "". reflexivity.
  - destruct (IH s) as [rest E]. exists rest.
    change (String c s = String c (substring 0 n s ++ rest)). f_equal. exact E.
Qed.

Lemma string_length_app (s t : string) :
  String.length (s ++ t) = String.length s + String.length t.
Proof. induction s as [|c s IH]; simpl; [reflexivity|]. rewrite IH. reflexivity. Qed.

(** The text shown for a description is its first 50 characters when it is
    longer than 50, and the description itself otherwise. *)
Lemma spec_description_cut (s : string) :
  (50 < String.length s ->
   String.length (spec_description s) = 50 /\ exists rest, s = spec_description s ++ rest) /\
  (String.length s <= 50 -> spec_description s = s) /\
  (String.length s = 51 -> exists c, s = spec_description s ++ String c "") /\
  (String.length s = 50 -> spec_description s = s).
Proof.
  set (t := spec_description s).
  assert (Hlong : 50 < String.length s ->
                  String.length t = 50 /\ exists rest, s = t ++ rest).
  { intros Hl. unfold t, spec_description.
    destruct (Nat.leb_spec (String.length s) 50) as [Hle|_]; [lia|].
    split; [rewrite substring_0_length; lia | apply substring_0_prefix]. }
  assert (Hshort : String.length s <= 50 -> t = s).
  { intros Hl. unfold t, spec_description.
    destruct (Nat.leb_spec (String.length s) 50) as [_|Hgt]; [reflexivity|lia]. }
  split; [exact Hlong|]. split; [exact Hshort|]. split.
  - intros H51. destruct Hlong as [Hlen [rest E]]; [lia|].
    assert (Hr : String.length rest = 1).
    { pose proof (f_equal String.length E) as EL.
      rewrite string_length_app in EL. lia. }
    destruct rest as [|c [|c' rest]]; simpl in Hr; try lia.
    exists c. exact E.
  - intros H50. apply Hshort. lia.
Qed.

Example description_51 :
  d_text <$> ops (draw_item (Y_TABLE_TOP_LINE - 5.0)%float (Canvas (PAGE_W, PAGE_H)) 0 long_item) !! 1
  = Some "GENERATOR SET, DIESEL ENGINE, SKID MOUNTED, 10 KW!".
Proof. reflexivity. Qed.

(** Page [k] of the written document: the template page under the header
    part and the rows of slice [k]. *)
Lemma rendered_lookup items header t0 k :
  items <> [] -> k < total_pages items ->
  rendered items header t0 !! k
  = Some (t0 ++ (Text <$> (spec_page_header header (k + 1) (total_pages items)
                             ++ concat (imap spec_row (page_items items k)))))%list.
Proof.
  intros Hne Hk. destruct items as [|x l]; [congruence|].
  unfold rendered.
  rewrite (list_lookup_fmap (fun k => (t0 ++ (Text <$> overlay_ops (x :: l) header k))%list)).
  rewrite lookup_seq_lt by exact Hk.
  simpl. rewrite overlay_ops_eq. reflexivity.
Qed.

Lemma truthy_empty (s : string) : truthy s = false <-> s = "".
Proof. destruct s; simpl; split; congruence. Qed.

(** The rows of a page around the row of one of its items. *)
Lemma concat_imap_middle {A B} (f : nat -> A -> list B) (l : list A) (i : nat) (x : A) :
  l !! i = Some x ->
  concat (imap f l)
  = (concat (imap f (take i l)) ++ f i x
       ++ concat (imap (fun n => f (i + S n)) (drop (S i) l)))%list.
Proof.
  intros Hl.
  pose proof (take_drop_middle l i x Hl) as E.
  assert (Hi : length (take i l) = i)
    by (rewrite length_take; apply lookup_lt_Some in Hl; lia).
  rewrite <- E at 1. rewrite imap_app, concat_app, imap_cons, Hi. simpl.
  rewrite Nat.add_0_r. reflexivity.
Qed.

(** A row that holds an item belongs to a page of the document. *)
Lemma page_items_on_a_page (items : list DD1750Item) (k i : nat) (item : DD1750Item) :
  page_items items k !! i = Some item -> k < total_pages items.
Proof.
  intros Hl.
  assert (Hi : i < ROWS_PER_PAGE).
  { apply lookup_lt_Some in Hl. rewrite page_items_chunk, length_take in Hl. lia. }
  rewrite page_items_lookup in Hl by exact Hi.
  apply lookup_lt_Some in Hl.
  pose proof (ceil_div_bounds (length items)) as B. fold (total_pages items) in B.
  unfold ROWS_PER_PAGE in *. nia.
Qed.

(** C4. On the written form, the description of every item is drawn as the
    second draw of its row (after the line number; left aligned, 3 units
    right of the content column's left edge, 7 under the row anchor,
    Helvetica 7), and its text is the first 50 characters of the item's
    description when the description is longer than 50, and the description
    itself otherwise; a description of 51 characters loses its last
    character, one of 50 is shown whole. *)
Theorem description_truncated_to_50 fault items path out header w t0 rest :
  items <> [] ->
  (forall t, fault t = false) ->
  files w !! path = Some (PdfFile (t0 :: rest)) ->
  exists w' doc,
    generate_dd1750 fault items path out header w = (w', inr (out, length items)) /\
    files w' !! out = Some (PdfFile doc) /\
    forall k i item,
      page_items items k !! i = Some item ->
      exists d,
        doc !! k
        = Some (t0 ++ (Text <$>
                  (spec_page_header header (k + 1) (total_pages items)
                   ++ concat (imap spec_row (take i (page_items items k)))
                   ++ [ text_at AlignCentred ((X_BOX_L + X_BOX_R) / 2)%float
                          (spec_row_anchor i - 7.0)%float 8 (str (line_no item));
                        d ]
                   ++ drop 2 (spec_row i item)
                   ++ concat (imap (fun n => spec_row (i + S n))
                                (drop (S i) (page_items items k))))))%list /\
        d_align d = AlignLeft /\
        d_x d = (X_CONTENT_L + 3.0)%float /\
        d_y d = (spec_row_anchor i - 7.0)%float /\
        d_font d = "Helvetica" /\
        d_size d = 7%Z /\
        (50 < String.length (description item) ->
         String.length (d_text d) = 50 /\ exists rest, description item = d_text d ++ rest) /\
        (String.length (description item) <= 50 -> d_text d = description item) /\
        (String.length (description item) = 51 ->
         exists c, description item = d_text d ++ String c "") /\
        (String.length (description item) = 50 -> d_text d = description item).
Proof.
  intros Hne Hf El.
  destruct (generate_dd1750_total fault items path out header w t0 rest Hf El)
    as (w' & E & Hw).
  exists w', (rendered items header t0).
  split; [exact E|]. split; [rewrite Hw; apply lookup_insert_eq|].
  intros k i item Hl.
  pose proof (page_items_on_a_page items k i item Hl) as Hk.
  exists (text_at AlignLeft (X_CONTENT_L + 3.0)%float (spec_row_anchor i - 7.0)%float 7
            (spec_description (description item))).
  split.
  { rewrite rendered_lookup by assumption.
    rewrite (concat_imap_middle spec_row _ _ _ Hl). reflexivity. }
  cbn [text_at d_align d_x d_y d_text d_font d_size].
  split; [reflexivity|]. split; [reflexivity|]. split; [reflexivity|].
  split; [reflexivity|]. split; [reflexivity|].
  apply spec_description_cut.
Qed.

Lemma description_truncated_to_50_witness :
  String.length (description long_item) = 51 /\
  exists w' doc d,
    generate_dd1750 no_fault [wrench; long_item] "blank_1750.pdf" "out.pdf" None disk
      = (w', inr ("out.pdf", 2)) /\
    files w' !! "out.pdf" = Some (PdfFile doc) /\
    doc !! 0
    = Some (blank_form ++ (Text <$>
              (spec_page_header None 1 1
               ++ spec_row 0 wrench
               ++ [ text_at AlignCentred ((X_BOX_L + X_BOX_R) / 2)%float
                      (spec_row_anchor 1 - 7.0)%float 8 "7";
                    d ]
               ++ drop 2 (spec_row 1 long_item))))%list /\
    String.length (d_text d) = 50 /\
    exists rest, description long_item = d_text d ++ rest.
Proof.
  split; [reflexivity|].
  destruct (description_truncated_to_50 no_fault [wrench; long_item] "blank_1750.pdf"
              "out.pdf" None disk blank_form []
              ltac:(discriminate) ltac:(reflexivity) ltac:(vm_compute; reflexivity))
    as (w' & doc & E & Hd & Hrow).
  destruct (Hrow 0 1 long_item eq_refl) as (d & Hk & _ & _ & _ & _ & _ & Hlong & _).
  exists w', doc, d. split; [exact E|]. split; [exact Hd|].
  split; [rewrite Hk; reflexivity|].
  apply Hlong. vm_compute. lia.
Defined.

(** C5. On every page [k] of the written document the rows follow the
    header part, one group of draws per item of the slice, in order.  Row
    [i] (counted from 0 within the page) is anchored at
    [y = (616 - 5) - i * ROW_H] and consists of: the line number centred in
    the box-number column at [y - 7]; the description text left aligned 3
    units right of the content column's left edge at [y - 7]; the text
    ["NSN: " ++ nsn] at [y - 17], present exactly when [nsn] is not empty;
    then unit of issue, initial, spares and total quantity, each centred in
    its column at [y - 7]. *)
Theorem rows_follow_layout fault items path out header w t0 rest :
  items <> [] ->
  (forall t, fault t = false) ->
  files w !! path = Some (PdfFile (t0 :: rest)) ->
  exists w' doc,
    generate_dd1750 fault items path out header w = (w', inr (out, length items)) /\
    files w' !! out = Some (PdfFile doc) /\
    (forall k, k < total_pages items ->
       doc !! k
       = Some (t0 ++ (Text <$> (spec_page_header header (k + 1) (total_pages items)
                                  ++ concat (imap spec_row (page_items items k)))))%list) /\
    (forall i item,
       let y := ((616.0 - 5.0) - float_of_nat i * ROW_H)%float in
       exists nsn_line,
         spec_row i item
         = ([ text_at AlignCentred ((X_BOX_L + X_BOX_R) / 2)%float (y - 7.0)%float 8
                (str (line_no item));
              text_at AlignLeft (X_CONTENT_L + 3.0)%float (y - 7.0)%float 7
                (spec_description (description item)) ]
            ++ nsn_line ++
            [ text_at AlignCentred ((X_UOI_L + X_UOI_R) / 2)%float (y - 7.0)%float 8
                (unit_of_issue item);
              text_at AlignCentred ((X_INIT_L + X_INIT_R) / 2)%float (y - 7.0)%float 8
                (str (initial_qty item));
              text_at AlignCentred ((X_SPARES_L + X_SPARES_R) / 2)%float (y - 7.0)%float 8
                (str (spares_qty item));
              text_at AlignCentred ((X_TOTAL_L + X_TOTAL_R) / 2)%float (y - 7.0)%float 8
                (str (total_qty item)) ])%list /\
         (nsn item <> "" ->
          nsn_line = [ text_at AlignLeft (X_CONTENT_L + 3.0)%float (y - 17.0)%float 6
                         ("NSN: " ++ nsn item) ]) /\
         (nsn item = "" -> nsn_line = [])).
Proof.
  intros Hne Hf El.
  destruct (generate_dd1750_total fault items path out header w t0 rest Hf El)
    as (w' & E & Hw).
  exists w', (rendered items header t0).
  split; [exact E|]. split; [rewrite Hw; apply lookup_insert_eq|]. split.
  - intros k Hk. apply rendered_lookup; assumption.
  - intros i item y.
    exists (when_present (nsn item)
              (text_at AlignLeft (X_CONTENT_L + 3.0)%float (y - 17.0)%float 6
                 ("NSN: " ++ nsn item))).
    split; [reflexivity|]. unfold when_present. split.
    + intros Hn. destruct (truthy (nsn item)) eqn:Et; [reflexivity|].
      apply truthy_empty in Et. contradiction.
    + intros Hn. rewrite Hn. reflexivity.
Qed.

Lemma rows_follow_layout_witness :
  [wrench] <> [] /\
  (forall t, no_fault t = false) /\
  files disk !! "blank_1750.pdf" = Some (PdfFile [blank_form]) /\
  exists w' doc,
    generate_dd1750 no_fault [wrench] "blank_1750.pdf" "out.pdf" None disk
      = (w', inr ("out.pdf", 1)) /\
    files w' !! "out.pdf" = Some (PdfFile doc) /\
    doc !! 0 = Some (blank_form ++ (Text <$> (spec_page_header None 1 1 ++ spec_row 0 wrench)))%list.
Proof.
  assert (H1 : [wrench] <> []) by discriminate.
  assert (H2 : forall t, no_fault t = false) by reflexivity.
  assert (H3 : files disk !! "blank_1750.pdf" = Some (PdfFile [blank_form]))
    by (vm_compute; reflexivity).
  split; [exact H1|]. split; [exact H2|]. split; [exact H3|].
  destruct (rows_follow_layout no_fault [wrench] "blank_1750.pdf" "out.pdf" None disk
              blank_form [] H1 H2 H3) as (w' & doc & E & Hd & Hk & _).
  exists w', doc. split; [exact E|]. split; [exact Hd|].
  rewrite (Hk 0) by (vm_compute; lia). reflexivity.
Defined.

(** C6. With a header and a non-empty list, every page of the written
    document starts, above the template page, with the same header draws:
    each non-empty field at its fixed place ([end_item] cut to 60
    characters, the date only when not empty), then that page's 1-based
    number and the page total, then the certifier name and title near the
    bottom, each only when not empty (so none when both are empty).  Only
    the page number differs from page to page. *)
Theorem header_on_every_page fault items path out h w t0 rest :
  items <> [] ->
  (forall t, fault t = false) ->
  files w !! path = Some (PdfFile (t0 :: rest)) ->
  exists w' doc,
    generate_dd1750 fault items path out (Some h) w = (w', inr (out, length items)) /\
    files w' !! out = Some (PdfFile doc) /\
    length doc = total_pages items /\
    forall k, k < total_pages items ->
      doc !! k
      = Some (t0 ++ (Text <$> (spec_header_fields h
                                 ++ spec_page_number (k + 1) (total_pages items)
                                 ++ spec_certifier h
                                 ++ concat (imap spec_row (page_items items k)))))%list.
Proof.
  intros Hne Hf El.
  destruct (generate_dd1750_total fault items path out (Some h) w t0 rest Hf El)
    as (w' & E & Hw).
  exists w', (rendered items (Some h) t0).
  split; [exact E|]. split; [rewrite Hw; apply lookup_insert_eq|]. split.
  - rewrite rendered_length. pose proof (total_pages_pos items Hne). lia.
  - intros k Hk. rewrite rendered_lookup by assumption.
    simpl. rewrite <- !app_assoc. reflexivity.
Qed.

Lemma header_on_every_page_witness :
  let items := replicate 19 wrench in
  exists w' doc,
    generate_dd1750 no_fault items "blank_1750.pdf" "out.pdf" (Some full_header) disk
      = (w', inr ("out.pdf", length items)) /\
    files w' !! "out.pdf" = Some (PdfFile doc) /\
    length doc = total_pages items /\
    forall k, k < total_pages items ->
      doc !! k
      = Some (blank_form ++ (Text <$> (spec_header_fields full_header
                                 ++ spec_page_number (k + 1) (total_pages items)
                                 ++ spec_certifier full_header
                                 ++ concat (imap spec_row (page_items items k)))))%list.
Proof.
  apply (header_on_every_page no_fault (replicate 19 wrench) "blank_1750.pdf" "out.pdf"
           full_header disk blank_form []).
  - discriminate.
  - reflexivity.
  - vm_compute. reflexivity.
Defined.

(** C7. The row height is (table top - table bottom) / rows per page, which
    is exactly 29.25 and greater than 17; so in every row of a page the NSN
    line at [y - 17] is strictly above [y - ROW_H], and [y - ROW_H] is the
    anchor of the next row. *)
Theorem row_height_clears_nsn_line (i : nat) :
  i < ROWS_PER_PAGE ->
  ROW_H = ((616.0 - 89.5) / 18)%float /\
  ROW_H = 29.25%float /\
  (17.0 <? ROW_H)%float = true /\
  let y := spec_row_anchor i in
  (y - ROW_H <? y - 17.0)%float = true /\
  spec_row_anchor (i + 1) = (y - ROW_H)%float.
Proof.
  intros Hi. unfold ROWS_PER_PAGE in Hi.
  do 18 (destruct i as [|i]; [vm_compute; repeat split; reflexivity|]).
  lia.
Qed.

Lemma row_height_clears_nsn_line_witness :
  17 < ROWS_PER_PAGE /\
  ROW_H = ((616.0 - 89.5) / 18)%float /\
  ROW_H = 29.25%float /\
  (17.0 <? ROW_H)%float = true /\
  (spec_row_anchor 17 - ROW_H <? spec_row_anchor 17 - 17.0)%float = true /\
  spec_row_anchor (17 + 1) = (spec_row_anchor 17 - ROW_H)%float.
Proof.
  split; [unfold ROWS_PER_PAGE; lia|].
  apply (row_height_clears_nsn_line 17). unfold ROWS_PER_PAGE. lia.
Defined.

(** C8. If the template cannot be read for some page (an outside fault at
    that page's read, or a template that is missing, is not a PDF or has no
    page), the call raises, and the file store is what it was before the
    call: the output path has received no page. *)
Theorem generate_dd1750_all_or_nothing fault items path out header w k :
  items <> [] ->
  k < total_pages items ->
  fault (clock w + k) = true \/
    (forall t0 rest, files w !! path <> Some (PdfFile (t0 :: rest))) ->
  exists w' e,
    generate_dd1750 fault items path out header w = (w', inl e) /\
    files w' = files w /\
    files w' !! out = files w !! out.
Proof.
  intros Hne Hk Hbad.
  destruct (generate_dd1750 fault items path out header w) as [w' [e|r]] eqn:E.
  - exists w', e. split; [reflexivity|].
    apply generate_dd1750_inl_files in E. rewrite E. split; reflexivity.
  - exfalso. destruct items as [|x l]; [congruence|].
    unfold generate_dd1750 in E. fold (total_pages (x :: l)) in E.
    set (n := total_pages (x :: l)) in *. unfold bind at 1 in E.
    destruct (for_pages fault (x :: l) path header n (seq 0 n) PdfWriter w)
      as [w1 [e1|wr]] eqn:EF; [discriminate|].
    apply for_pages_inv in EF as [Hf Ht].
    destruct Hbad as [Hfault|Hmissing].
    + rewrite Hf in Hfault by (rewrite length_seq; exact Hk). discriminate.
    + destruct Ht as (t0 & rest & El).
      { destruct n; [lia|]. simpl. congruence. }
      exact (Hmissing t0 rest El).
Qed.

Lemma generate_dd1750_all_or_nothing_witness :
  let items := replicate 19 wrench in
  items <> [] /\ 1 < total_pages items /\ second_read_fails (clock disk + 1) = true /\
  exists w' e,
    generate_dd1750 second_read_fails items "blank_1750.pdf" "out.pdf" None disk = (w', inl e) /\
    files w' = files disk /\
    files w' !! "out.pdf" = files disk !! "out.pdf".
Proof.
  assert (H1 : replicate 19 wrench <> []) by discriminate.
  assert (H2 : 1 < total_pages (replicate 19 wrench)) by (vm_compute; lia).
  assert (H3 : second_read_fails (clock disk + 1) = true) by reflexivity.
  split; [exact H1|]. split; [exact H2|]. split; [exact H3|].
  apply (generate_dd1750_all_or_nothing second_read_fails (replicate 19 wrench)
           "blank_1750.pdf" "out.pdf" None disk 1 H1 H2 (or_introl H3)).
Defined.

(** C9. Two calls on the same items and header that both return normally,
    in any two stores, at any paths and under any outside faults, with
    templates that have the same first page, write the same document: page
    by page the same draw instructions (text, position, alignment, font and
    size), which depend on the items and the header alone.  They report the
    same item count. *)
Theorem rendering_is_deterministic fault1 fault2 items header
    path1 path2 out1 out2 w1 w2 w1' w2' r1 r2 t0 rest1 rest2 :
  files w1 !! path1 = Some (PdfFile (t0 :: rest1)) ->
  files w2 !! path2 = Some (PdfFile (t0 :: rest2)) ->
  generate_dd1750 fault1 items path1 out1 header w1 = (w1', inr r1) ->
  generate_dd1750 fault2 items path2 out2 header w2 = (w2', inr r2) ->
  files w1' !! out1 = Some (PdfFile (rendered items header t0)) /\
  files w2' !! out2 = Some (PdfFile (rendered items header t0)) /\
  r1.2 = r2.2 /\
  (items <> [] ->
   rendered items header t0
   = map (fun k => (t0 ++ (Text <$> overlay_ops items header k))%list)
       (seq 0 (total_pages items))).
Proof.
  intros El1 El2 E1 E2.
  apply generate_dd1750_inr_inv in E1 as (t1 & rs1 & El1' & -> & Hw1).
  apply generate_dd1750_inr_inv in E2 as (t2 & rs2 & El2' & -> & Hw2).
  rewrite El1 in El1'. rewrite El2 in El2'.
  inversion El1'; inversion El2'; subst t1 t2 rs1 rs2.
  rewrite Hw1, Hw2, !lookup_insert_eq.
  repeat split.
  intros Hne. destruct items as [|x l]; [congruence|]. reflexivity.
Qed.

Lemma rendering_is_deterministic_witness :
  exists doc,
    files (generate_dd1750 no_fault [wrench] "blank_1750.pdf" "a.pdf" None disk).1 !! "a.pdf"
      = Some (PdfFile doc) /\
    files (generate_dd1750 no_fault [wrench] "forms/dd1750.pdf" "b.pdf" None other_disk).1 !! "b.pdf"
      = Some (PdfFile doc).
Proof.
  destruct (generate_dd1750 no_fault [wrench] "blank_1750.pdf" "a.pdf" None disk)
    as [w1' [e1|r1]] eqn:E1; [vm_compute in E1; discriminate|].
  destruct (generate_dd1750 no_fault [wrench] "forms/dd1750.pdf" "b.pdf" None other_disk)
    as [w2' [e2|r2]] eqn:E2; [vm_compute in E2; discriminate|].
  exists (rendered [wrench] None blank_form).
  destruct (rendering_is_deterministic no_fault no_fault [wrench] None
              "blank_1750.pdf" "forms/dd1750.pdf" "a.pdf" "b.pdf"
              disk other_disk w1' w2' r1 r2 blank_form [] [blank_form]
              ltac:(vm_compute; reflexivity) ltac:(vm_compute; reflexivity) E1 E2)
    as (H1 & H2 & _).
  split; assumption.
Defined.

(** C10. Without a header and with a non-empty list, the header part of
    every page is the page-number field alone: the page's 1-based number at
    (500, 660) and the page total at (545, 660), in Helvetica 10, followed
    directly by the rows.  The same two draws are part of the header part
    when a header is given. *)
Theorem page_numbers_without_header fault items path out w t0 rest :
  items <> [] ->
  (forall t, fault t = false) ->
  files w !! path = Some (PdfFile (t0 :: rest)) ->
  exists w' doc,
    generate_dd1750 fault items path out None w = (w', inr (out, length items)) /\
    files w' !! out = Some (PdfFile doc) /\
    length doc = total_pages items /\
    forall k, k < total_pages items ->
      let number :=
        [ text_at AlignLeft 500.0%float 660.0%float 10 (str (Z.of_nat (k + 1)));
          text_at AlignLeft 545.0%float 660.0%float 10 (str (Z.of_nat (total_pages items))) ] in
      doc !! k = Some (t0 ++ (Text <$> (number ++ concat (imap spec_row (page_items items k)))))%list /\
      forall h, exists before after,
        overlay_ops items (Some h) k
        = (before ++ number ++ after ++ concat (imap spec_row (page_items items k)))%list /\
        before = spec_header_fields h /\ after = spec_certifier h.
Proof.
  intros Hne Hf El.
  destruct (generate_dd1750_total fault items path out None w t0 rest Hf El)
    as (w' & E & Hw).
  exists w', (rendered items None t0).
  split; [exact E|]. split; [rewrite Hw; apply lookup_insert_eq|]. split.
  - rewrite rendered_length. pose proof (total_pages_pos items Hne). lia.
  - intros k Hk number. split.
    + rewrite rendered_lookup by assumption. reflexivity.
    + intros h. exists (spec_header_fields h), (spec_certifier h).
      split; [|split; reflexivity].
      rewrite overlay_ops_eq. simpl. rewrite <- !app_assoc. reflexivity.
Qed.

Lemma page_numbers_without_header_witness :
  exists w' doc,
    generate_dd1750 no_fault [wrench] "blank_1750.pdf" "out.pdf" None disk
      = (w', inr ("out.pdf", 1)) /\
    files w' !! "out.pdf" = Some (PdfFile doc) /\
    length doc = 1 /\
    doc !! 0
    = Some (blank_form ++
            (Text <$> ([ text_at AlignLeft 500.0%float 660.0%float 10 "1";
                         text_at AlignLeft 545.0%float 660.0%float 10 "1" ]
                       ++ spec_row 0 wrench)))%list.
Proof.
  destruct (page_numbers_without_header no_fault [wrench] "blank_1750.pdf" "out.pdf" disk
              blank_form [] ltac:(discriminate) ltac:(reflexivity)
              ltac:(vm_compute; reflexivity)) as (w' & doc & E & Hd & Hl & Hk).
  exists w', doc. split; [exact E|]. split; [exact Hd|]. split; [exact Hl|].
  destruct (Hk 0 ltac:(vm_compute; lia)) as [H0 _]. rewrite H0. reflexivity.
Defined.

(** * Further properties of the renderer *)

(** ** What a call changes *)

(** X1. Whatever its outcome, a call changes no file other than the one at
    the output path: the template, when it is stored elsewhere, and every
    other file are as before, whether the call returns or raises. *)
Theorem generate_dd1750_touches_only_output fault items path out header w w' r :
  generate_dd1750 fault items path out header w = (w', r) ->
  forall p, p <> out -> files w' !! p = files w !! p.
Proof.
  intros E p Hp. destruct r as [e|v].
  - rewrite (generate_dd1750_inl_files fault items path out header w w' e E). reflexivity.
  - apply generate_dd1750_inr_inv in E as (t0 & rest & _ & _ & Hw).
    rewrite Hw. apply lookup_insert_ne. congruence.
Qed.

Lemma generate_dd1750_touches_only_output_witness :
  files (generate_dd1750 no_fault [wrench] "blank_1750.pdf" "out.pdf" None disk).1
    !! "blank_1750.pdf"
  = files disk !! "blank_1750.pdf" /\
  files (generate_dd1750 second_read_fails (replicate 19 wrench) "blank_1750.pdf" "out.pdf"
           None disk).1 !! "blank_1750.pdf"
  = files disk !! "blank_1750.pdf".
Proof.
  split.
  - exact (generate_dd1750_touches_only_output no_fault [wrench] "blank_1750.pdf" "out.pdf"
             None disk
             (generate_dd1750 no_fault [wrench] "blank_1750.pdf" "out.pdf" None disk).1
             (inr ("out.pdf", 1))
             ltac:(vm_compute; reflexivity)
             "blank_1750.pdf" ltac:(discriminate)).
  - exact (generate_dd1750_touches_only_output second_read_fails (replicate 19 wrench)
             "blank_1750.pdf" "out.pdf" None disk
             (generate_dd1750 second_read_fails (replicate 19 wrench) "blank_1750.pdf"
                "out.pdf" None disk).1
             (inl OSError)
             ltac:(vm_compute; reflexivity)
             "blank_1750.pdf" ltac:(discriminate)).
Defined.

(** X2. When the first read of the template is not hit by an outside fault,
    a template that is missing makes the call raise [FileNotFoundError], one
    that is not a PDF [PdfReadError], and a PDF without pages [IndexError];
    this holds for every item list, empty or not, and the call stops right
    after that one read. *)
Theorem generate_dd1750_template_errors fault items path out header w :
  fault (clock w) = false ->
  match files w !! path with
  | None =>
      generate_dd1750 fault items path out header w = (tick w, inl FileNotFoundError)
  | Some (OtherFile _) =>
      generate_dd1750 fault items path out header w = (tick w, inl PdfReadError)
  | Some (PdfFile []) =>
      generate_dd1750 fault items path out header w = (tick w, inl IndexError)
  | Some (PdfFile (_ :: _)) => True
  end.
Proof.
  intros Ef.
  assert (Hopen : open_file fault w = (tick w, inr tt)) by (apply open_file_ok; exact Ef).
  assert (Hn : exists n, total_pages items = S n \/ items = []).
  { destruct items as [|x l]; [exists 0; auto|].
    pose proof (total_pages_pos (x :: l) ltac:(congruence)).
    exists (total_pages (x :: l) - 1). left. lia. }
  destruct Hn as [n Hn].
  destruct (files w !! path) as [[[|p d]|raw]|] eqn:El; [| exact I | |].
  all: destruct items as [|x l];
    [ unfold generate_dd1750, PdfReader, bind; rewrite Hopen; simpl; rewrite El; reflexivity
    | destruct Hn as [Hn|Hn]; [|congruence];
      unfold generate_dd1750; fold (total_pages (x :: l)); rewrite Hn;
      simpl seq; simpl for_pages;
      unfold compose_page, PdfReader, bind; rewrite Hopen; simpl; rewrite El; reflexivity ].
Qed.

Lemma generate_dd1750_template_errors_witness :
  generate_dd1750 no_fault [wrench] "nowhere.pdf" "out.pdf" None disk
  = (tick disk, inl FileNotFoundError).
Proof.
  exact (generate_dd1750_template_errors no_fault [wrench] "nowhere.pdf" "out.pdf" None disk
           eq_refl).
Defined.

(** ** Where the rows fall *)

Lemma page_items_short (items : list DD1750Item) (k : nat) :
  length (page_items items k) <= ROWS_PER_PAGE.
Proof. rewrite page_items_chunk, length_take. lia. Qed.

Lemma spec_row_ys (i : nat) (item : DD1750Item) :
  Forall (fun d => d_y d = (spec_row_anchor i - 7.0)%float \/
                   d_y d = (spec_row_anchor i - 17.0)%float) (spec_row i item).
Proof.
  unfold spec_row, when_present. destruct (truthy (nsn item)); simpl;
    repeat (apply List.Forall_cons;
            [first [left; reflexivity | right; reflexivity]|]);
    apply List.Forall_nil.
Qed.

Lemma rows_in_band (i : nat) (item : DD1750Item) :
  i < ROWS_PER_PAGE ->
  Forall (fun d =>
            ((Y_TABLE_TOP_LINE - float_of_nat (i + 1) * ROW_H <? d_y d)%float = true /\
             (d_y d <? Y_TABLE_TOP_LINE - float_of_nat i * ROW_H)%float = true) /\
            ((Y_TABLE_BOTTOM_LINE <? d_y d)%float = true /\
             (d_y d <? Y_TABLE_TOP_LINE)%float = true))
         (spec_row i item).
Proof.
  intros Hi. unfold ROWS_PER_PAGE in Hi.
  eapply Forall_impl; [apply spec_row_ys|].
  intros d Hd. cbv beta in Hd.
  do 18 (destruct i as [|i];
         [destruct Hd as [-> | ->]; vm_compute; repeat split; reflexivity|]).
  lia.
Qed.

(** X3. On every page, what the canvas holds after the header part is one
    group of draws per item of the page, and each draw of the group of row
    [i] has its baseline strictly between the grid lines
    [616 - (i + 1) * ROW_H] and [616 - i * ROW_H] of that row, hence
    strictly inside the table; the lowest grid line, under row 17, is the
    table bottom 89.5.  So no row text is drawn outside its row. *)
Theorem rows_stay_in_their_band (items : list DD1750Item) (header : option DD1750Header)
    (k : nat) :
  exists rows,
    overlay_ops items header k
    = (ops (draw_page_header (Canvas (PAGE_W, PAGE_H)) header k (total_pages items))
         ++ concat rows)%list /\
    length rows = length (page_items items k) /\
    (Forall (fun row => 6 <= length row) rows) /\
    (forall i row, rows !! i = Some row ->
       Forall (fun d =>
                 ((Y_TABLE_TOP_LINE - float_of_nat (i + 1) * ROW_H <? d_y d)%float = true /\
                  (d_y d <? Y_TABLE_TOP_LINE - float_of_nat i * ROW_H)%float = true) /\
                 ((Y_TABLE_BOTTOM_LINE <? d_y d)%float = true /\
                  (d_y d <? Y_TABLE_TOP_LINE)%float = true)) row) /\
    (Y_TABLE_TOP_LINE - float_of_nat ROWS_PER_PAGE * ROW_H)%float = Y_TABLE_BOTTOM_LINE.
Proof.
  exists (imap spec_row (page_items items k)).
  split.
  { rewrite overlay_ops_eq, draw_page_header_ops. reflexivity. }
  split; [apply length_imap|]. split.
  { apply Forall_forall. intros row Hin.
    apply list_elem_of_lookup in Hin as [i Hi].
    rewrite list_lookup_imap in Hi.
    destruct (page_items items k !! i) as [item|]; [|discriminate].
    simpl in Hi. inversion Hi; subst.
    unfold spec_row, when_present. destruct (truthy (nsn item)); simpl; lia. }
  split; [|reflexivity].
  intros i row Hi. rewrite list_lookup_imap in Hi.
  destruct (page_items items k !! i) as [item|] eqn:Hl; [|discriminate].
  simpl in Hi. inversion Hi; subst.
  apply rows_in_band.
  apply lookup_lt_Some in Hl. pose proof (page_items_short items k). lia.
Qed.

Lemma rows_stay_in_their_band_witness :
  exists rows,
    overlay_ops (replicate 19 wrench) (Some full_header) 0
    = (ops (draw_page_header (Canvas (PAGE_W, PAGE_H)) (Some full_header) 0
              (total_pages (replicate 19 wrench)))
         ++ concat rows)%list /\
    length rows = 18 /\
    Forall (fun row => 6 <= length row) rows.
Proof.
  destruct (rows_stay_in_their_band (replicate 19 wrench) (Some full_header) 0)
    as (rows & E & Hl & Hn & _).
  exists rows. split; [exact E|]. split; [exact Hl|exact Hn].
Defined.

(** ** Every item reaches the form *)

Lemma concat_imap_lookup {A B} (f : nat -> A -> list B) (l : list A) (i : nat) (x : A) :
  l !! i = Some x ->
  exists before after, concat (imap f l) = (before ++ f i x ++ after)%list.
Proof.
  intros Hl.
  pose proof (take_drop_middle l i x Hl) as E.
  exists (concat (imap f (take i l))),
         (concat (imap (fun n => f (length (take i l) + S n)) (drop (S i) l))).
  rewrite <- E at 1. rewrite imap_app, concat_app. f_equal.
  rewrite imap_cons. simpl.
  replace (length (take i l) + 0) with i
    by (rewrite length_take; apply lookup_lt_Some in Hl; lia).
  reflexivity.
Qed.

Lemma item_on_its_page (items : list DD1750Item) (header : option DD1750Header)
    (j : nat) (item : DD1750Item) :
  items !! j = Some item ->
  j / 18 < total_pages items /\
  page_items items (j / 18) !! (j mod 18) = Some item /\
  exists before after,
    overlay_ops items header (j / 18) = (before ++ spec_row (j mod 18) item ++ after)%list.
Proof.
  intros Hl.
  pose proof (lookup_lt_Some _ _ _ Hl) as Hj.
  pose proof (ceil_div_bounds (length items)) as B. fold (total_pages items) in B.
  unfold ROWS_PER_PAGE in B.
  pose proof (Nat.div_mod_eq j 18) as Ej.
  pose proof (Nat.mod_upper_bound j 18 ltac:(lia)) as Hm.
  assert (Hp : page_items items (j / 18) !! (j mod 18) = Some item).
  { rewrite page_items_lookup by exact Hm. rewrite <- Hl. f_equal.
    unfold ROWS_PER_PAGE. lia. }
  split; [nia|]. split; [exact Hp|].
  rewrite overlay_ops_eq.
  destruct (concat_imap_lookup spec_row _ _ _ Hp) as (b & a & E).
  exists (spec_page_header header (j / 18 + 1) (total_pages items) ++ b)%list, a.
  rewrite E, <- app_assoc. reflexivity.
Qed.

(** X4. The item at index [j] of the input is drawn on page [j / 18], which
    is a page of the document, in row [j mod 18]: the draws of that page
    contain the row of the item, whatever the header. *)
Theorem every_item_is_drawn (items : list DD1750Item) (header : option DD1750Header)
    (j : nat) (item : DD1750Item) :
  items !! j = Some item ->
  j / 18 < total_pages items /\
  page_items items (j / 18) !! (j mod 18) = Some item /\
  exists before after,
    overlay_ops items header (j / 18) = (before ++ spec_row (j mod 18) item ++ after)%list.
Proof. exact (item_on_its_page items header j item). Qed.

Lemma every_item_is_drawn_witness :
  18 / 18 < total_pages (replicate 19 wrench) /\
  page_items (replicate 19 wrench) (18 / 18) !! (18 mod 18) = Some wrench /\
  exists before after,
    overlay_ops (replicate 19 wrench) None (18 / 18)
    = (before ++ spec_row (18 mod 18) wrench ++ after)%list.
Proof.
  exact (every_item_is_drawn (replicate 19 wrench) None 18 wrench eq_refl).
Defined.

(** X5. Only the last page can be partly filled: every page before the last
    holds exactly 18 items, and the last one holds the remaining
    [N - 18 * (pages - 1)], at least one. *)
Theorem only_last_page_is_partial (items : list DD1750Item) (k : nat) :
  k < total_pages items ->
  (k + 1 < total_pages items -> length (page_items items k) = 18) /\
  (k + 1 = total_pages items ->
   length (page_items items k) = length items - 18 * k /\
   0 < length items - 18 * k <= 18).
Proof.
  intros Hk.
  pose proof (ceil_div_bounds (length items)) as B. fold (total_pages items) in B.
  rewrite page_items_chunk, length_take, length_drop.
  unfold ROWS_PER_PAGE in *. split; intros H; lia.
Qed.

Lemma only_last_page_is_partial_witness :
  length (page_items (replicate 19 wrench) 0) = 18 /\
  length (page_items (replicate 19 wrench) 1) = 1.
Proof.
  split.
  - apply (only_last_page_is_partial (replicate 19 wrench) 0); vm_compute; lia.
  - destruct (only_last_page_is_partial (replicate 19 wrench) 1 ltac:(vm_compute; lia))
      as [_ H]. destruct (H ltac:(reflexivity)) as [E _]. exact E.
Defined.

(** ** A header without content *)

(** X6. A header whose fields are all empty (the defaults of
    [DD1750Header]) renders as no header at all: the call behaves the same
    with it as with [None], so only the page numbers appear above the
    rows. *)
Theorem empty_header_is_no_header fault items path out w h :
  packed_by h = "" -> no_boxes h = "" -> requisition_no h = "" -> order_no h = "" ->
  end_item h = "" -> date h = "" -> certifier_name h = "" -> certifier_title h = "" ->
  generate_dd1750 fault items path out (Some h) w
  = generate_dd1750 fault items path out None w.
Proof.
  intros H1 H2 H3 H4 H5 H6 H7 H8.
  assert (Hd : forall can pn total,
             draw_page_header can (Some h) pn total = draw_page_header can None pn total).
  { intros can pn total. unfold draw_page_header, _draw_header.
    rewrite H1, H2, H3, H4, H5, H6, H7, H8. reflexivity. }
  assert (Ho : forall total k, draw_overlay items (Some h) total k
                               = draw_overlay items None total k).
  { intros total k. unfold draw_overlay. rewrite Hd. reflexivity. }
  assert (Hc : forall total writer k,
             compose_page fault items path (Some h) total writer k
             = compose_page fault items path None total writer k).
  { intros total writer k. unfold compose_page. rewrite Ho. reflexivity. }
  assert (Hf : forall total range writer w0,
             for_pages fault items path (Some h) total range writer w0
             = for_pages fault items path None total range writer w0).
  { intros total range. induction range as [|k range IH]; intros writer w0; [reflexivity|].
    simpl. rewrite Hc. unfold bind.
    destruct (compose_page fault items path None total writer k w0) as [w1 [e|wr]];
      [reflexivity|apply IH]. }
  unfold generate_dd1750. destruct items as [|x l]; [reflexivity|].
  unfold bind at 1 3. rewrite Hf. reflexivity.
Qed.

Lemma empty_header_is_no_header_witness :
  generate_dd1750 no_fault [wrench] "blank_1750.pdf" "out.pdf" (Some empty_header) disk
  = generate_dd1750 no_fault [wrench] "blank_1750.pdf" "out.pdf" None disk.
Proof.
  exact (empty_header_is_no_header no_fault [wrench] "blank_1750.pdf" "out.pdf" disk
           empty_header eq_refl eq_refl eq_refl eq_refl eq_refl eq_refl eq_refl eq_refl).
Defined.

(** * The vision extractor *)

(** ** Dicts in insertion order *)

Section DictFacts.

Import vision_extractor.

Context {V : Type}.
Implicit Types (d : dict V) (k : string) (v : V).

Lemma dict_get_set_eq d k v : dict_get (dict_set d k v) k = Some v.
Proof.
  induction d as [|[k' v'] d IH]; simpl.
  - rewrite String.eqb_refl. reflexivity.
  - destruct (String.eqb k' k) eqn:E; simpl; rewrite E; [reflexivity|exact IH].
Qed.

Lemma dict_get_set_ne d k k' v : k <> k' -> dict_get (dict_set d k v) k' = dict_get d k'.
Proof.
  intros Hne. induction d as [|[k0 v0] d IH]; simpl.
  - destruct (String.eqb_spec k k'); [contradiction|reflexivity].
  - destruct (String.eqb_spec k0 k) as [->|Hk]; simpl.
    + destruct (String.eqb_spec k k'); [contradiction|reflexivity].
    + destruct (String.eqb k0 k'); [reflexivity|exact IH].
Qed.

Lemma dict_get_None d k : dict_get d k = None <-> k ∉ d.*1.
Proof.
  induction d as [|[k0 v0] d IH]; simpl.
  - split; [intros _; apply not_elem_of_nil|reflexivity].
  - rewrite not_elem_of_cons. destruct (String.eqb_spec k0 k) as [->|Hk].
    + split; [discriminate|intros [Hc _]; congruence].
    + rewrite IH. split; [intros H; split; [congruence|exact H]|intros [_ H]; exact H].
Qed.

Lemma dict_get_Some_elem d k v : dict_get d k = Some v -> (k, v) ∈ d.
Proof.
  induction d as [|[k0 v0] d IH]; simpl; [discriminate|].
  destruct (String.eqb_spec k0 k) as [->|Hk].
  - intros E; inversion E; subst. apply elem_of_cons. left. reflexivity.
  - intros E. apply elem_of_cons. right. apply IH, E.
Qed.

Lemma dict_set_absent d k v : dict_get d k = None -> dict_set d k v = (d ++ [(k, v)])%list.
Proof.
  induction d as [|[k0 v0] d IH]; simpl; [reflexivity|].
  destruct (String.eqb k0 k); [discriminate|]. intros E. rewrite IH by exact E. reflexivity.
Qed.

Lemma dict_set_present_keys d k v v0 :
  dict_get d k = Some v0 -> (dict_set d k v).*1 = d.*1.
Proof.
  induction d as [|[k1 v1] d IH]; [discriminate|].
  simpl dict_get. simpl dict_set. destruct (String.eqb k1 k); [reflexivity|].
  intros E. rewrite !fmap_cons. f_equal. apply IH, E.
Qed.

Lemma dict_set_elem d k v k' v' :
  (k', v') ∈ dict_set d k v -> (k', v') = (k, v) \/ (k', v') ∈ d.
Proof.
  induction d as [|[k1 v1] d IH]; simpl.
  - intros H. apply list_elem_of_singleton in H. left. exact H.
  - destruct (String.eqb_spec k1 k) as [->|Hk]; intros H; apply elem_of_cons in H as [H|H].
    + left. exact H.
    + right. apply elem_of_cons. right. exact H.
    + right. apply elem_of_cons. left. exact H.
    + destruct (IH H) as [H'|H']; [left; exact H'|right; apply elem_of_cons; right; exact H'].
Qed.

End DictFacts.

(** ** Deduplication *)

Section DeduplicateFacts.

Import vision_extractor.

Variable upper : string -> string.

#[local] Abbreviation key x := (upper (description x)).

Lemma seen_after_nil : seen_after upper [] [].
Proof.
  split; [constructor|]. split; [constructor|].
  intros x Hx. apply elem_of_nil in Hx. contradiction.
Qed.

Lemma seen_after_step l seen x :
  seen_after upper l seen -> seen_after upper (l ++ [x]) (keep_highest upper seen x).
Proof.
  intros (Hnd & Hall & Hmax).
  assert (Hall' : Forall (fun kv => key kv.2 = kv.1 /\ kv.2 ∈ (l ++ [x])%list) seen).
  { eapply Forall_impl; [exact Hall|]. intros kv [Hk Hin]. split; [exact Hk|].
    apply elem_of_app. left. exact Hin. }
  assert (Hx : x ∈ (l ++ [x])%list)
    by (apply elem_of_app; right; apply list_elem_of_singleton; reflexivity).
  unfold keep_highest. destruct (dict_get seen (key x)) as [old|] eqn:Eg.
  - destruct (Z.ltb_spec (qty old) (qty x)) as [Hlt|Hge].
    + split; [rewrite (dict_set_present_keys _ _ _ _ Eg); exact Hnd|]. split.
      * apply Forall_forall. intros [k v] Hin.
        apply dict_set_elem in Hin as [Hin|Hin].
        -- inversion Hin; subst. split; [reflexivity|exact Hx].
        -- exact (proj1 (Forall_forall _ _) Hall' _ Hin).
      * intros y Hy. destruct (String.string_dec (key x) (key y)) as [Ek|Ek].
        -- exists x. rewrite <- Ek, dict_get_set_eq. split; [reflexivity|].
           apply elem_of_app in Hy as [Hy|Hy].
           ++ destruct (Hmax y Hy) as (v & Ev & Hq). rewrite <- Ek, Eg in Ev.
              inversion Ev; subst. lia.
           ++ apply list_elem_of_singleton in Hy. subst. lia.
        -- rewrite dict_get_set_ne by exact Ek.
           apply elem_of_app in Hy as [Hy|Hy]; [exact (Hmax y Hy)|].
           apply list_elem_of_singleton in Hy. subst. congruence.
    + split; [exact Hnd|]. split; [exact Hall'|].
      intros y Hy. apply elem_of_app in Hy as [Hy|Hy]; [exact (Hmax y Hy)|].
      apply list_elem_of_singleton in Hy. subst. exists old. split; [exact Eg|lia].
  - rewrite (dict_set_absent _ _ _ Eg). split.
    + rewrite fmap_app. apply NoDup_app. split; [exact Hnd|]. split.
      * intros k Hk Hk'. apply list_elem_of_singleton in Hk'. simpl in Hk'. subst.
        apply dict_get_None in Eg. contradiction.
      * apply NoDup_singleton.
    + split.
      * apply Forall_app. split; [exact Hall'|]. constructor; [|constructor].
        split; [reflexivity|exact Hx].
      * intros y Hy. rewrite <- (dict_set_absent _ _ _ Eg).
        destruct (String.string_dec (key x) (key y)) as [Ek|Ek].
        -- exists x. rewrite <- Ek, dict_get_set_eq. split; [reflexivity|].
           apply elem_of_app in Hy as [Hy|Hy].
           ++ destruct (Hmax y Hy) as (v & Ev & Hq). rewrite <- Ek, Eg in Ev. discriminate.
           ++ apply list_elem_of_singleton in Hy. subst. lia.
        -- rewrite dict_get_set_ne by exact Ek.
           apply elem_of_app in Hy as [Hy|Hy]; [exact (Hmax y Hy)|].
           apply list_elem_of_singleton in Hy. subst. congruence.
Qed.

Lemma seen_after_fold l2 : forall l1 seen,
  seen_after upper l1 seen ->
  seen_after upper (l1 ++ l2) (fold_left (keep_highest upper) l2 seen).
Proof.
  induction l2 as [|x l2 IH]; intros l1 seen H; simpl.
  - rewrite app_nil_r. exact H.
  - replace (l1 ++ x :: l2)%list with ((l1 ++ [x]) ++ l2)%list
      by (rewrite <- app_assoc; reflexivity).
    apply IH, seen_after_step, H.
Qed.

Lemma seen_after_all l : seen_after upper l (fold_left (keep_highest upper) l []).
Proof. exact (seen_after_fold l [] [] seen_after_nil). Qed.

End DeduplicateFacts.

Section ExtractorFacts.

Import vision_extractor.

Context {image : Type}.
Variable convert_from_path : string -> Z -> exn + list image.
Variable convert_from_bytes : bytes -> Z -> exn + list image.
Variable save_png : image -> bytes.
Variable extract_items_from_image : forall (call : nat), bytes -> string -> Z -> list ExtractedItem.
Variable upper : string -> string.

#[local] Abbreviation key x := (upper (description x)).

Lemma values_keys l seen :
  seen_after upper l seen -> (fun x => key x) <$> values seen = seen.*1.
Proof.
  intros (_ & Hall & _). unfold values. induction Hall as [|[k v] seen [Hk _] _ IH].
  - reflexivity.
  - rewrite !fmap_cons. simpl in *. rewrite Hk, IH. reflexivity.
Qed.

Lemma deduplicate_keys_distinct (l : list ExtractedItem) :
  NoDup ((fun x => key x) <$> deduplicate upper l).
Proof.
  unfold deduplicate. pose proof (seen_after_all upper l) as H.
  rewrite (values_keys _ _ H). exact (proj1 H).
Qed.

Lemma collect_items_eq api_key start_page total cb (imgs : list bytes) :
  collect_items extract_items_from_image api_key start_page total cb imgs
  = (concat (imap (fun i img =>
                     extract_items_from_image i img api_key (start_page + Z.of_nat i + 1)%Z)
               imgs),
     if cb
     then imap (fun i _ =>
                  ((start_page + Z.of_nat i + 1)%Z, total,
                   length (concat (imap (fun i img =>
                       extract_items_from_image i img api_key (start_page + Z.of_nat i + 1)%Z)
                     (take i imgs))))) imgs
     else []).
Proof.
  unfold collect_items. induction imgs as [|img imgs IH] using rev_ind.
  - destruct cb; reflexivity.
  - rewrite enumerate_snoc, fold_left_app, IH. simpl.
    rewrite !imap_app, concat_app. simpl. rewrite Nat.add_0_r, app_nil_r.
    f_equal. destruct cb; [|reflexivity].
    f_equal.
    + apply imap_ext. intros i x Hi. simpl.
      rewrite take_app_le by (apply lookup_lt_Some in Hi; lia). reflexivity.
    + rewrite take_app_length. reflexivity.
Qed.

Lemma py_slice_in_range {A} (l : list A) (a b : Z) :
  (0 <= a)%Z -> (a <= b)%Z -> (b <= Z.of_nat (length l))%Z ->
  py_slice l a b = take (Z.to_nat (b - a)) (drop (Z.to_nat a) l).
Proof.
  intros Ha Hab Hb. unfold py_slice, slice_bound.
  destruct (Z.ltb_spec a 0), (Z.ltb_spec b 0); try lia.
  rewrite !Nat.min_l by lia. f_equal. lia.
Qed.

Lemma py_slice_past_end {A} (l : list A) (a b : Z) :
  (Z.of_nat (length l) <= a)%Z -> py_slice l a b = [].
Proof.
  intros Ha. unfold py_slice, slice_bound.
  destruct (Z.ltb_spec a 0); [lia|].
  rewrite (Nat.min_r (Z.to_nat a)) by lia.
  rewrite drop_ge by lia. apply take_nil.
Qed.

(** X7. Whatever the rasteriser and the vision service answer, the items
    that [extract_items_from_pdf] returns have pairwise different
    upper-cased descriptions. *)
Theorem extracted_items_are_distinct api_key pdf_path pdf_bytes start_page end_page cb
    items reported :
  extract_items_from_pdf convert_from_path convert_from_bytes save_png
    extract_items_from_image upper api_key pdf_path pdf_bytes start_page end_page cb
  = inr (items, reported) ->
  NoDup ((fun x => upper (description x)) <$> items).
Proof.
  unfold extract_items_from_pdf.
  destruct (pdf_to_images convert_from_path convert_from_bytes save_png pdf_path pdf_bytes 150)
    as [e|images]; [discriminate|].
  destruct (collect_items _ _ _ _ _ _) as [all_items rep].
  intros E. inversion E; subst. apply deduplicate_keys_distinct.
Qed.

(** X8. Deduplication keeps, for each upper-cased description, an item of
    the highest quantity: every result is one of the given items, and every
    given item has a result with the same upper-cased description and a
    quantity at least its own. *)
Theorem deduplicate_keeps_highest (l : list ExtractedItem) :
  Forall (fun v => v ∈ l) (deduplicate upper l) /\
  Forall (fun x =>
            Exists (fun v => upper (description v) = upper (description x) /\
                             (qty x <= qty v)%Z)
                   (deduplicate upper l)) l.
Proof.
  unfold deduplicate. set (seen := fold_left (keep_highest upper) l []).
  pose proof (seen_after_all upper l) as (Hnd & Hall & Hmax). fold seen in Hnd, Hall, Hmax.
  split.
  - unfold values. apply Forall_fmap. eapply Forall_impl; [exact Hall|].
    intros kv [_ Hin]. exact Hin.
  - apply Forall_forall. intros x Hx. destruct (Hmax x Hx) as (v & Ev & Hq).
    apply Exists_exists. exists v. split; [|split; [|exact Hq]].
    + apply dict_get_Some_elem in Ev. unfold values.
      apply list_elem_of_fmap. exists (key x, v). split; [reflexivity|exact Ev].
    + apply dict_get_Some_elem in Ev.
      exact (proj1 (proj1 (Forall_forall _ _) Hall _ Ev)).
Qed.

Lemma fold_keep_highest_distinct (l : list ExtractedItem) :
  NoDup ((fun x => key x) <$> l) ->
  fold_left (keep_highest upper) l [] = (fun x => (key x, x)) <$> l.
Proof.
  induction l as [|x l IH] using rev_ind; intros Hnd; [reflexivity|].
  rewrite fmap_app in Hnd. apply NoDup_app in Hnd as (Hl & Hdis & _).
  rewrite fold_left_app, IH by exact Hl. simpl. unfold keep_highest.
  assert (Eg : dict_get ((fun x => (key x, x)) <$> l) (key x) = None).
  { apply dict_get_None. rewrite <- list_fmap_compose. intros Hin.
    apply (Hdis _ Hin). simpl. apply list_elem_of_singleton. reflexivity. }
  rewrite Eg, (dict_set_absent _ _ _ Eg), fmap_app. reflexivity.
Qed.

Lemma deduplicate_of_distinct (l : list ExtractedItem) :
  NoDup ((fun x => key x) <$> l) -> deduplicate upper l = l.
Proof.
  intros Hnd. unfold deduplicate, values.
  rewrite fold_keep_highest_distinct by exact Hnd.
  rewrite <- list_fmap_compose. apply list_fmap_id.
Qed.

(** X9. Items whose upper-cased descriptions are pairwise different pass
    through deduplication unchanged and in their order. *)
Theorem deduplicate_fixes_distinct (l : list ExtractedItem) :
  NoDup ((fun x => upper (description x)) <$> l) ->
  deduplicate upper l = l.
Proof. exact (deduplicate_of_distinct l). Qed.

(** X10. Deduplicating twice is deduplicating once. *)
Theorem deduplicate_idempotent (l : list ExtractedItem) :
  deduplicate upper (deduplicate upper l) = deduplicate upper l.
Proof. apply deduplicate_of_distinct, deduplicate_keys_distinct. Qed.

(** X11. For a page range [0 <= start_page <= end_page <= number of pages],
    exactly the pages [start_page .. end_page - 1] (counted from 0) are
    submitted, in order; the progress callback is called once per page with
    the 1-based page numbers [start_page + 1 .. end_page] and with the page
    count of the whole PDF; and the result is the deduplication of the
    answers in that order. *)
Theorem extract_processes_page_range api_key pdf_path pdf_bytes images
    (start_page end_page : Z) :
  pdf_to_images convert_from_path convert_from_bytes save_png pdf_path pdf_bytes 150
  = inr images ->
  (0 <= start_page)%Z -> (start_page <= end_page)%Z ->
  (end_page <= Z.of_nat (length images))%Z ->
  exists items reported,
    extract_items_from_pdf convert_from_path convert_from_bytes save_png
      extract_items_from_image upper api_key pdf_path pdf_bytes start_page (Some end_page) true
    = inr (items, reported) /\
    items = deduplicate upper
              (concat (imap (fun i img =>
                               extract_items_from_image i img api_key
                                 (start_page + Z.of_nat i + 1)%Z)
                         (take (Z.to_nat (end_page - start_page))
                            (drop (Z.to_nat start_page) images)))) /\
    reported.*1
    = (fun i => ((start_page + Z.of_nat i + 1)%Z, length images))
        <$> seq 0 (Z.to_nat (end_page - start_page)).
Proof.
  intros Ei H0 Hse Hen. unfold extract_items_from_pdf. rewrite Ei.
  rewrite collect_items_eq, py_slice_in_range by assumption.
  eexists _, _. split; [reflexivity|]. split; [reflexivity|].
  set (sl := take _ (drop _ images)).
  assert (Hlen : length sl = Z.to_nat (end_page - start_page)).
  { unfold sl. rewrite length_take, length_drop. lia. }
  rewrite <- Hlen. rewrite fmap_imap.
  rewrite <- (imap_seq_0 sl (fun i => ((start_page + Z.of_nat i + 1)%Z, length images))).
  apply imap_ext. intros i x _. reflexivity.
Qed.

Lemma extract_past_end api_key pdf_path pdf_bytes images
    (start_page : Z) (end_page : option Z) (cb : bool) :
  pdf_to_images convert_from_path convert_from_bytes save_png pdf_path pdf_bytes 150
  = inr images ->
  (Z.of_nat (length images) <= start_page)%Z ->
  extract_items_from_pdf convert_from_path convert_from_bytes save_png
    extract_items_from_image upper api_key pdf_path pdf_bytes start_page end_page cb
  = inr ([], []).
Proof.
  intros Ei Hs. unfold extract_items_from_pdf. rewrite Ei.
  rewrite py_slice_past_end by exact Hs.
  unfold collect_items. simpl. reflexivity.
Qed.

(** X12. A start page at or past the end of the PDF selects nothing: the
    call returns the empty list, without an error and without calling the
    progress callback, whatever the end page is. *)
Theorem extract_past_end_is_empty api_key pdf_path pdf_bytes images
    (start_page : Z) (end_page : option Z) (cb : bool) :
  pdf_to_images convert_from_path convert_from_bytes save_png pdf_path pdf_bytes 150
  = inr images ->
  (Z.of_nat (length images) <= start_page)%Z ->
  extract_items_from_pdf convert_from_path convert_from_bytes save_png
    extract_items_from_image upper api_key pdf_path pdf_bytes start_page end_page cb
  = inr ([], []).
Proof.
  exact (extract_past_end api_key pdf_path pdf_bytes images start_page end_page cb).
Qed.

End ExtractorFacts.

Lemma extracted_items_are_distinct_witness :
  NoDup ((fun x => id (vision_extractor.description x)) <$>
         [ {| vision_extractor.description := "Wrench, adjustable";
              vision_extractor.nsn := "123456789";
              vision_extractor.qty := 3;
              vision_extractor.confidence := "high";
              vision_extractor.notes := "" |} ]).
Proof.
  exact (extracted_items_are_distinct no_path three_pages page_tag sees_wrench id
           "key" None (Some some_pdf) 0%Z None false _ [] eq_refl).
Defined.

Lemma deduplicate_fixes_distinct_witness :
  vision_extractor.deduplicate id two_tools = two_tools.
Proof.
  apply (deduplicate_fixes_distinct id two_tools).
  apply (bool_decide_unpack (NoDup ((fun x => id (vision_extractor.description x)) <$> two_tools))).
  vm_compute. exact I.
Defined.

Lemma extract_processes_page_range_witness :
  exists items reported,
    vision_extractor.extract_items_from_pdf no_path three_pages page_tag sees_wrench id
      "key" None (Some some_pdf) 1%Z (Some 3%Z) true
    = inr (items, reported) /\
    items = vision_extractor.deduplicate id
              (concat (imap (fun i img => sees_wrench i img "key" (1 + Z.of_nat i + 1)%Z)
                         (take (Z.to_nat (3 - 1)%Z)
                            (drop (Z.to_nat 1%Z) (page_tag <$> [1; 2; 3]))))) /\
    reported.*1 = (fun i => ((1 + Z.of_nat i + 1)%Z, length (page_tag <$> [1; 2; 3])))
                    <$> seq 0 (Z.to_nat (3 - 1)%Z).
Proof.
  apply (extract_processes_page_range no_path three_pages page_tag sees_wrench id
           "key" None (Some some_pdf) (page_tag <$> [1; 2; 3]) 1%Z 3%Z eq_refl);
    vm_compute; congruence.
Defined.

Lemma extract_past_end_is_empty_witness :
  vision_extractor.extract_items_from_pdf no_path three_pages page_tag sees_wrench id
    "key" None (Some some_pdf) 3%Z None true
  = inr ([], []).
Proof.
  apply (extract_past_end_is_empty no_path three_pages page_tag sees_wrench id
           "key" None (Some some_pdf) (page_tag <$> [1; 2; 3]) 3%Z None true eq_refl).
  vm_compute. congruence.
Defined.

(** Three pages showing the same wrench: one item, with the highest quantity. *)
Example same_wrench_three_times :
  match vision_extractor.extract_items_from_pdf no_path three_pages page_tag sees_wrench id
          "key" None (Some some_pdf) 0%Z None true with
  | inr (items, reported) =>
      vision_extractor.qty <$> items = [3%Z] /\
      reported = [(1%Z, 3, 0); (2%Z, 3, 1); (3%Z, 3, 2)]
  | inl _ => False
  end.
Proof. vm_compute. split; reflexivity. Qed.

(** * The web application *)

(** ** Credits *)

Section CreditFacts.

Import app.

Variable FREE_EXTRACTIONS : Z.

Implicit Types (uid : string) (users : gmap string user_data).

Lemma get_user_data_lookup uid users :
  (get_user_data uid users).2 !! uid = Some (get_user_data uid users).1.
Proof.
  unfold get_user_data. destruct (users !! uid) as [d|] eqn:E; simpl.
  - exact E.
  - apply lookup_insert_eq.
Qed.

Lemma get_user_data_other uid uid' users :
  uid <> uid' -> (get_user_data uid users).2 !! uid' = users !! uid'.
Proof.
  intros Hne. unfold get_user_data. destruct (users !! uid) as [d|]; simpl.
  - reflexivity.
  - apply lookup_insert_ne. exact Hne.
Qed.

Lemma get_user_data_again uid users :
  get_user_data uid (get_user_data uid users).2 = get_user_data uid users.
Proof.
  unfold get_user_data at 1. rewrite get_user_data_lookup.
  destruct (get_user_data uid users); reflexivity.
Qed.

Lemma get_user_data_insert uid d users :
  get_user_data uid (<[uid := d]> users) = (d, <[uid := d]> users).
Proof. unfold get_user_data. rewrite lookup_insert_eq. reflexivity. Qed.

Lemma remaining_insert uid d users :
  (get_remaining_extractions FREE_EXTRACTIONS uid (<[uid := d]> users)).1
  = (Z.max 0 (FREE_EXTRACTIONS - extractions_used d) + credits d)%Z.
Proof.
  unfold get_remaining_extractions. rewrite get_user_data_insert. reflexivity.
Qed.

Lemma remaining_eq uid users :
  (get_remaining_extractions FREE_EXTRACTIONS uid users).1
  = (Z.max 0 (FREE_EXTRACTIONS - extractions_used (get_user_data uid users).1)
     + credits (get_user_data uid users).1)%Z.
Proof.
  unfold get_remaining_extractions. destruct (get_user_data uid users). reflexivity.
Qed.

Lemma get_user_data_credits uid users :
  (forall d, users !! uid = Some d -> (0 <= credits d)%Z) ->
  (0 <= credits (get_user_data uid users).1)%Z.
Proof.
  intros H. unfold get_user_data. destruct (users !! uid) as [d|] eqn:E; simpl.
  - apply H. reflexivity.
  - lia.
Qed.

(** X13. For a user who owes no credits, [use_extraction] succeeds exactly
    when [get_remaining_extractions] is positive. *)
Theorem use_extraction_iff_remaining uid users :
  (forall d, users !! uid = Some d -> (0 <= credits d)%Z) ->
  (use_extraction FREE_EXTRACTIONS uid users).1 = true
  <-> (0 < (get_remaining_extractions FREE_EXTRACTIONS uid users).1)%Z.
Proof.
  intros Hc. apply get_user_data_credits in Hc.
  rewrite remaining_eq. unfold use_extraction.
  destruct (get_user_data uid users) as [d us]. simpl in *.
  destruct (Z.ltb_spec (extractions_used d) FREE_EXTRACTIONS);
    [|destruct (Z.ltb_spec 0 (credits d))]; simpl; split; intros; try lia; auto; discriminate.
Qed.

Lemma use_extraction_outcome uid users ok users' :
  use_extraction FREE_EXTRACTIONS uid users = (ok, users') ->
  let d := (get_user_data uid users).1 in
  if ok then
    (get_remaining_extractions FREE_EXTRACTIONS uid users').1
    = ((get_remaining_extractions FREE_EXTRACTIONS uid users).1 - 1)%Z /\
    users' !! uid
    = Some (if (extractions_used d <? FREE_EXTRACTIONS)%Z
            then {| extractions_used := extractions_used d + 1; credits := credits d;
                    total_paid := total_paid d |}
            else {| extractions_used := extractions_used d; credits := credits d - 1;
                    total_paid := total_paid d |})
  else
    users' = (get_user_data uid users).2 /\
    ((get_remaining_extractions FREE_EXTRACTIONS uid users).1 <= 0)%Z.
Proof.
  rewrite (remaining_eq uid users). unfold use_extraction.
  destruct (get_user_data uid users) as [d us]. simpl.
  destruct (Z.ltb_spec (extractions_used d) FREE_EXTRACTIONS);
    [|destruct (Z.ltb_spec 0 (credits d))]; intros E; inversion E; subst; clear E.
  - rewrite remaining_insert, lookup_insert_eq. simpl. split; [lia|reflexivity].
  - rewrite remaining_insert, lookup_insert_eq. simpl. split; [lia|reflexivity].
  - split; [reflexivity|lia].
Qed.

(** X14. A successful [use_extraction] lowers the user's remaining
    extractions by exactly one, taking a free extraction while one is left
    and a paid credit otherwise; a refused one changes nothing but the
    creation of the user's default record, and then nothing remains. *)
Theorem use_extraction_costs_one uid users ok users' :
  use_extraction FREE_EXTRACTIONS uid users = (ok, users') ->
  let d := (get_user_data uid users).1 in
  if ok then
    (get_remaining_extractions FREE_EXTRACTIONS uid users').1
    = ((get_remaining_extractions FREE_EXTRACTIONS uid users).1 - 1)%Z /\
    users' !! uid
    = Some (if (extractions_used d <? FREE_EXTRACTIONS)%Z
            then {| extractions_used := extractions_used d + 1; credits := credits d;
                    total_paid := total_paid d |}
            else {| extractions_used := extractions_used d; credits := credits d - 1;
                    total_paid := total_paid d |})
  else
    users' = (get_user_data uid users).2 /\
    ((get_remaining_extractions FREE_EXTRACTIONS uid users).1 <= 0)%Z.
Proof. exact (use_extraction_outcome uid users ok users'). Qed.

(** X15. [use_extraction] and the refund [credits += 1] touch the record of
    the calling user only: every other user's record is as before. *)
Theorem credit_changes_are_per_user uid uid' users n :
  uid <> uid' ->
  (use_extraction FREE_EXTRACTIONS uid users).2 !! uid' = users !! uid' /\
  add_credits uid n users !! uid' = users !! uid' /\
  (get_remaining_extractions FREE_EXTRACTIONS uid users).2 !! uid' = users !! uid'.
Proof.
  intros Hne. pose proof (get_user_data_other uid uid' users Hne) as Ho.
  unfold use_extraction, add_credits, get_remaining_extractions.
  destruct (get_user_data uid users) as [d us]. simpl in Ho.
  split; [|split; [|exact Ho]].
  - destruct (extractions_used d <? FREE_EXTRACTIONS)%Z;
      [|destruct (0 <? credits d)%Z]; simpl;
      rewrite ?lookup_insert_ne by exact Hne; exact Ho.
  - rewrite lookup_insert_ne by exact Hne. exact Ho.
Qed.

(** Refunding a successful extraction restores the user's remaining
    extractions to what they were before it. *)
Lemma refund_restores_remaining uid users users' :
  use_extraction FREE_EXTRACTIONS uid users = (true, users') ->
  (get_remaining_extractions FREE_EXTRACTIONS uid (add_credits uid 1 users')).1
  = (get_remaining_extractions FREE_EXTRACTIONS uid users).1.
Proof.
  rewrite (remaining_eq uid users). unfold use_extraction.
  destruct (get_user_data uid users) as [d us]. simpl.
  destruct (Z.ltb_spec (extractions_used d) FREE_EXTRACTIONS);
    [|destruct (Z.ltb_spec 0 (credits d))]; intros E; inversion E; subst; clear E;
    unfold add_credits; rewrite get_user_data_insert, remaining_insert; simpl; lia.
Qed.

Lemma remaining_after_get_user_data uid users :
  (get_remaining_extractions FREE_EXTRACTIONS uid (get_user_data uid users).2).1
  = (get_remaining_extractions FREE_EXTRACTIONS uid users).1.
Proof. rewrite !remaining_eq, get_user_data_again. reflexivity. Qed.

Lemma remaining_users uid users :
  (get_remaining_extractions FREE_EXTRACTIONS uid users).2 = (get_user_data uid users).2.
Proof.
  unfold get_remaining_extractions. destruct (get_user_data uid users). reflexivity.
Qed.

Lemma remaining_add_credits uid n users :
  (get_remaining_extractions FREE_EXTRACTIONS uid (add_credits uid n users)).1
  = ((get_remaining_extractions FREE_EXTRACTIONS uid users).1 + n)%Z.
Proof.
  rewrite (remaining_eq uid users). unfold add_credits.
  destruct (get_user_data uid users) as [d us].
  rewrite remaining_insert. simpl. lia.
Qed.

Lemma add_credits_lookup uid n users :
  add_credits uid n users !! uid
  = Some {| extractions_used := extractions_used (get_user_data uid users).1;
            credits := credits (get_user_data uid users).1 + n;
            total_paid := total_paid (get_user_data uid users).1 |}.
Proof.
  unfold add_credits. destruct (get_user_data uid users) as [d us].
  apply lookup_insert_eq.
Qed.

Lemma add_credits_other uid uid' n users :
  uid <> uid' -> add_credits uid n users !! uid' = users !! uid'.
Proof.
  intros Hne. pose proof (get_user_data_other uid uid' users Hne) as Ho.
  unfold add_credits. destruct (get_user_data uid users) as [d us]. simpl in Ho.
  rewrite lookup_insert_ne by exact Hne. exact Ho.
Qed.

Lemma use_extraction_other uid uid' users :
  uid <> uid' -> (use_extraction FREE_EXTRACTIONS uid users).2 !! uid' = users !! uid'.
Proof.
  intros Hne. pose proof (get_user_data_other uid uid' users Hne) as Ho.
  unfold use_extraction. destruct (get_user_data uid users) as [d us]. simpl in Ho.
  destruct (extractions_used d <? FREE_EXTRACTIONS)%Z;
    [|destruct (0 <? credits d)%Z]; simpl;
    rewrite ?lookup_insert_ne by exact Hne; exact Ho.
Qed.


Lemma users_ok_get_user_data uid users :
  users_ok users -> users_ok (get_user_data uid users).2 /\
                    (0 <= credits (get_user_data uid users).1)%Z.
Proof.
  intros H. unfold get_user_data. destruct (users !! uid) as [d|] eqn:E; simpl.
  - split; [exact H|exact (H uid d E)].
  - split; [|lia]. intros u d Hl.
    destruct (decide (uid = u)) as [->|Hne].
    + rewrite lookup_insert_eq in Hl. inversion Hl; subst. simpl. lia.
    + rewrite lookup_insert_ne in Hl by exact Hne. exact (H u d Hl).
Qed.

Lemma users_ok_insert uid d users :
  users_ok users -> (0 <= credits d)%Z -> users_ok (<[uid := d]> users).
Proof.
  intros H Hd u d' Hl. destruct (decide (uid = u)) as [->|Hne].
  - rewrite lookup_insert_eq in Hl. inversion Hl; subst. exact Hd.
  - rewrite lookup_insert_ne in Hl by exact Hne. exact (H u d' Hl).
Qed.

Lemma users_ok_use_extraction uid users :
  users_ok users -> users_ok (use_extraction FREE_EXTRACTIONS uid users).2.
Proof.
  intros H. destruct (users_ok_get_user_data uid users H) as [H1 H2].
  unfold use_extraction. destruct (get_user_data uid users) as [d us]. simpl in *.
  destruct (extractions_used d <? FREE_EXTRACTIONS)%Z;
    [|destruct (Z.ltb_spec 0 (credits d))]; simpl.
  - apply users_ok_insert; [exact H1|exact H2].
  - apply users_ok_insert; [exact H1|simpl; lia].
  - exact H1.
Qed.

Lemma users_ok_add_credits uid n users :
  users_ok users -> (0 <= n)%Z -> users_ok (add_credits uid n users).
Proof.
  intros H Hn. destruct (users_ok_get_user_data uid users H) as [H1 H2].
  unfold add_credits. destruct (get_user_data uid users) as [d us]. simpl in *.
  apply users_ok_insert; [exact H1|simpl; lia].
Qed.

End CreditFacts.

(** ** The extraction route *)

Section ExtractRouteFacts.

Import app.

Variable FREE_EXTRACTIONS : Z.
Variable ANTHROPIC_API_KEY : string.
Context {image : Type}.
Variable convert_from_path : string -> Z -> vision_extractor.exn + list image.
Variable convert_from_bytes :
  vision_extractor.bytes -> Z -> vision_extractor.exn + list image.
Variable save_png : image -> vision_extractor.bytes.
Variable extract_items_from_image :
  forall (call : nat), vision_extractor.bytes -> string -> Z ->
    list vision_extractor.ExtractedItem.
Variable upper : string -> string.
Variable not_bytes : temp -> vision_extractor.exn.

#[local] Abbreviation route :=
  (extract_items FREE_EXTRACTIONS ANTHROPIC_API_KEY convert_from_path convert_from_bytes
     save_png extract_items_from_image upper not_bytes).

#[local] Abbreviation remaining uid users :=
  ((get_remaining_extractions FREE_EXTRACTIONS uid users).1).

(** What the route does to the globals, by the status of its response. *)
Lemma extract_items_outcome uuid start_page end_page sess g resp sess' g' :
  route uuid start_page end_page sess g = (resp, sess', g') ->
  let uid := (get_user_id uuid sess).1 in
  ACCESS_CODES g' = ACCESS_CODES g /\
  (forall uid', uid <> uid' -> USER_DATA g' !! uid' = USER_DATA g !! uid') /\
  (users_ok (USER_DATA g) -> users_ok (USER_DATA g')) /\
  (resp.2 = 503%Z /\ g' = g \/
   resp.2 = 400%Z /\ remaining uid (USER_DATA g') = remaining uid (USER_DATA g) /\
     TEMP_STORAGE g' = TEMP_STORAGE g \/
   resp.2 = 402%Z /\ remaining uid (USER_DATA g') = remaining uid (USER_DATA g) /\
     (remaining uid (USER_DATA g) <= 0)%Z /\ TEMP_STORAGE g' = TEMP_STORAGE g /\
     resp.1 = JObj [("error",
                     JStr "No extractions remaining. Please purchase credits to continue.");
                    ("need_credits", JBool true)] \/
   resp.2 = 500%Z /\ remaining uid (USER_DATA g') = remaining uid (USER_DATA g) /\
     TEMP_STORAGE g' = TEMP_STORAGE g \/
   resp.2 = 200%Z /\
     remaining uid (USER_DATA g') = (remaining uid (USER_DATA g) - 1)%Z).
Proof.
  intros E uid. unfold extract_items in E.
  destruct (check_api_configured ANTHROPIC_API_KEY); simpl in E.
  2:{ inversion E; subst. split; [reflexivity|]. split; [reflexivity|].
      split; [auto|]. left. split; reflexivity. }
  subst uid. destruct (get_user_id uuid sess) as [uid s1]. simpl.
  pose proof (remaining_users FREE_EXTRACTIONS uid (USER_DATA g)) as HU.
  pose proof (remaining_after_get_user_data FREE_EXTRACTIONS uid (USER_DATA g)) as HR.
  destruct (get_remaining_extractions FREE_EXTRACTIONS uid (USER_DATA g)) as [rem users1] eqn:ER.
  simpl in HU, HR. subst users1.
  set (users1 := (get_user_data uid (USER_DATA g)).2) in *.
  assert (Hother1 : forall uid', uid <> uid' -> users1 !! uid' = USER_DATA g !! uid')
    by (intros; apply get_user_data_other; assumption).
  assert (Hok1 : users_ok (USER_DATA g) -> users_ok users1)
    by (intros H; apply users_ok_get_user_data, H).
  destruct (Z.leb_spec rem 0) as [Hrem|Hrem].
  { inversion E; subst. simpl. split; [reflexivity|]. split; [exact Hother1|].
    split; [exact Hok1|]. right. right. left. repeat split; auto. }
  simpl in E.
  destruct (TEMP_STORAGE g !! (uid ++ "_pdf")) as [v|].
  2:{ inversion E; subst. simpl. split; [reflexivity|]. split; [exact Hother1|].
      split; [exact Hok1|]. right. left. repeat split; auto. }
  destruct (temp_truthy v); simpl in E.
  2:{ inversion E; subst. simpl. split; [reflexivity|]. split; [exact Hother1|].
      split; [exact Hok1|]. right. left. repeat split; auto. }
  pose proof (use_extraction_outcome FREE_EXTRACTIONS uid users1) as HX.
  assert (HXo : forall uid', uid <> uid' ->
            (use_extraction FREE_EXTRACTIONS uid users1).2 !! uid' = users1 !! uid')
    by (intros; apply use_extraction_other; assumption).
  pose proof (users_ok_use_extraction FREE_EXTRACTIONS uid users1) as HXk.
  destruct (use_extraction FREE_EXTRACTIONS uid users1) as [ok users2].
  specialize (HX ok users2 eq_refl). simpl in HX, HXk, HXo.
  destruct ok; simpl in E.
  2:{ destruct HX as [_ HX]. lia. }
  destruct HX as [HX _].
  assert (Hother2 : forall uid', uid <> uid' -> users2 !! uid' = USER_DATA g !! uid').
  { intros uid' Hne. rewrite <- (Hother1 uid' Hne). exact (HXo uid' Hne). }
  destruct (run_extraction _ _ _ _ _ _ _ _ _ _) as [e|items]; simpl in E.
  - inversion E; subst. simpl. split; [reflexivity|]. split.
    { intros uid' Hne. rewrite add_credits_other by exact Hne. exact (Hother2 uid' Hne). }
    split; [intros H; apply users_ok_add_credits; [auto|lia]|].
    right. right. right. left. split; [reflexivity|]. split; [|reflexivity].
    rewrite remaining_add_credits, HX. lia.
  - rewrite (surjective_pairing (get_remaining_extractions FREE_EXTRACTIONS uid users2)) in E.
    inversion E; subst. simpl. rewrite remaining_users.
    split; [reflexivity|]. split.
    { intros uid' Hne. rewrite get_user_data_other by exact Hne. exact (Hother2 uid' Hne). }
    split; [intros H; apply users_ok_get_user_data; auto|].
    right. right. right. right. split; [reflexivity|].
    rewrite remaining_after_get_user_data, HX. lia.
Qed.

(** X16. The extraction route charges for success only: after a response
    with status 200 the user's remaining extractions are one less than
    before, and after any other response (503, 402, 400, or 500 when the
    extraction raised and the credit was refunded) they are what they
    were.  No other user's record and no access code is touched. *)
Theorem extract_items_charges_success_only uuid start_page end_page sess g resp sess' g' :
  extract_items FREE_EXTRACTIONS ANTHROPIC_API_KEY convert_from_path convert_from_bytes
    save_png extract_items_from_image upper not_bytes uuid start_page end_page sess g
  = (resp, sess', g') ->
  let uid := (get_user_id uuid sess).1 in
  (get_remaining_extractions FREE_EXTRACTIONS uid (USER_DATA g')).1
  = ((get_remaining_extractions FREE_EXTRACTIONS uid (USER_DATA g)).1
     - (if (resp.2 =? 200)%Z then 1 else 0))%Z /\
  (forall uid', uid <> uid' -> USER_DATA g' !! uid' = USER_DATA g !! uid') /\
  ACCESS_CODES g' = ACCESS_CODES g.
Proof.
  intros E uid.
  destruct (extract_items_outcome _ _ _ _ _ _ _ _ E) as (Hc & Ho & _ & Hcase).
  fold uid in Ho, Hcase. split; [|split; [exact Ho|exact Hc]].
  destruct Hcase as [[Hs ->]|[(Hs & Hr & _)|[(Hs & Hr & _)|[(Hs & Hr & _)|(Hs & Hr)]]]];
    rewrite Hs; simpl; rewrite ?Hr; lia.
Qed.

(** X17. The route answers 402 only to a user with no extraction left, and
    then leaves the stored data as it was; the answer is always the first
    refusal of the code ("... Please purchase credits to continue."): the
    second one, after [use_extraction], is never reached. *)
Theorem extract_items_refuses_only_without_credit uuid start_page end_page sess g resp sess' g' :
  extract_items FREE_EXTRACTIONS ANTHROPIC_API_KEY convert_from_path convert_from_bytes
    save_png extract_items_from_image upper not_bytes uuid start_page end_page sess g
  = (resp, sess', g') ->
  resp.2 = 402%Z ->
  ((get_remaining_extractions FREE_EXTRACTIONS (get_user_id uuid sess).1 (USER_DATA g)).1 <= 0)%Z /\
  TEMP_STORAGE g' = TEMP_STORAGE g /\
  resp.1 = JObj [("error",
                  JStr "No extractions remaining. Please purchase credits to continue.");
                 ("need_credits", JBool true)].
Proof.
  intros E Hs.
  destruct (extract_items_outcome _ _ _ _ _ _ _ _ E) as (_ & _ & _ & Hcase).
  destruct Hcase as [[Hs' _]|[(Hs' & _)|[(_ & _ & Hr & Ht & Hb)|[(Hs' & _)|(Hs' & _)]]]];
    try (rewrite Hs in Hs'; discriminate).
  auto.
Qed.

(** X25. A page range that starts at or past the end of the uploaded PDF is
    still charged: for a user with extractions left and a stored PDF that
    the rasteriser accepts, the route answers 200 with no items and a count
    of 0, stores the empty item list, and the user's remaining extractions
    go down by one. *)
Theorem extract_items_charges_empty_range uuid (start end_page : option Z) sess g
    b bs images :
  check_api_configured ANTHROPIC_API_KEY = true ->
  let uid := (get_user_id uuid sess).1 in
  (0 < (get_remaining_extractions FREE_EXTRACTIONS uid (USER_DATA g)).1)%Z ->
  TEMP_STORAGE g !! (uid ++ "_pdf") = Some (TBytes (b :: bs)) ->
  convert_from_bytes (b :: bs) 150 = inr images ->
  (Z.of_nat (length images) <= default 0 start)%Z ->
  exists g',
    extract_items FREE_EXTRACTIONS ANTHROPIC_API_KEY convert_from_path convert_from_bytes
    save_png extract_items_from_image upper not_bytes uuid start end_page sess g
    = ((JObj [("success", JBool true);
              ("items", JArr []);
              ("count", JInt 0);
              ("remaining_extractions",
               JInt ((get_remaining_extractions FREE_EXTRACTIONS uid (USER_DATA g)).1 - 1))],
        200%Z),
       (get_user_id uuid sess).2, g') /\
    TEMP_STORAGE g' !! (uid ++ "_items") = Some (TItems []) /\
    (get_remaining_extractions FREE_EXTRACTIONS uid (USER_DATA g')).1
    = ((get_remaining_extractions FREE_EXTRACTIONS uid (USER_DATA g)).1 - 1)%Z.
Proof.
  intros Hapi uid Hrem Hpdf Hconv Hstart.
  assert (Hrun : run_extraction ANTHROPIC_API_KEY convert_from_path convert_from_bytes
                   save_png extract_items_from_image upper not_bytes
                   (TBytes (b :: bs)) (default 0%Z start) end_page = inr []).
  { unfold run_extraction. cbv beta iota.
    rewrite (extract_past_end convert_from_path convert_from_bytes save_png
               extract_items_from_image upper ANTHROPIC_API_KEY None
               (@Some vision_extractor.bytes (b :: bs))
               (save_png <$> images) (default 0%Z start) end_page false).
    - reflexivity.
    - unfold vision_extractor.pdf_to_images. rewrite Hconv. reflexivity.
    - rewrite length_fmap. exact Hstart. }
  unfold extract_items. rewrite Hapi. simpl negb. cbv iota.
  subst uid. destruct (get_user_id uuid sess) as [uid s1]. simpl in *.
  pose proof (remaining_users FREE_EXTRACTIONS uid (USER_DATA g)) as HU.
  destruct (get_remaining_extractions FREE_EXTRACTIONS uid (USER_DATA g)) as [rem users1] eqn:ER.
  simpl in HU, Hrem. subst users1.
  destruct (Z.leb_spec rem 0) as [|_]; [lia|].
  simpl. rewrite Hpdf. simpl.
  pose proof (use_extraction_outcome FREE_EXTRACTIONS uid (get_user_data uid (USER_DATA g)).2)
    as HX.
  destruct (use_extraction FREE_EXTRACTIONS uid (get_user_data uid (USER_DATA g)).2)
    as [ok users2].
  specialize (HX ok users2 eq_refl). simpl in HX.
  rewrite remaining_after_get_user_data, ER in HX. simpl in HX.
  destruct ok; [|lia]. destruct HX as [HX _]. simpl.
  rewrite Hrun. simpl.
  rewrite (surjective_pairing (get_remaining_extractions FREE_EXTRACTIONS uid users2)).
  rewrite HX, remaining_users.
  eexists. split; [reflexivity|]. simpl. split; [apply lookup_insert_eq|].
  rewrite remaining_after_get_user_data, HX. reflexivity.
Qed.

Lemma extract_items_keeps_credits_ok uuid start_page end_page sess g :
  credits_ok g -> credits_ok (route uuid start_page end_page sess g).2.
Proof.
  intros [Hu Hc].
  destruct (route uuid start_page end_page sess g) as [[resp sess'] g'] eqn:E. simpl.
  destruct (extract_items_outcome _ _ _ _ _ _ _ _ E) as (Hcodes & _ & Hok & _).
  split; [exact (Hok Hu)|]. rewrite Hcodes. exact Hc.
Qed.

End ExtractRouteFacts.

(** ** Access codes *)

Section AccessCodeFacts.

Import app.

Variable FREE_EXTRACTIONS : Z.
Variable ANTHROPIC_API_KEY : string.
Variable ADMIN_PASSWORD : string.
Variable strip : string -> string.
Variable upper : string -> string.

#[local] Abbreviation redeem := (redeem_code FREE_EXTRACTIONS strip upper).
#[local] Abbreviation remaining uid users :=
  ((get_remaining_extractions FREE_EXTRACTIONS uid users).1).

Lemma truthy_true (s : string) : truthy s = true <-> s <> "".
Proof. destruct s; simpl; split; congruence. Qed.

Lemma get_user_data_add_credits uid n users :
  (get_user_data uid (add_credits uid n users)).2 = add_credits uid n users.
Proof.
  unfold get_user_data. rewrite add_credits_lookup. reflexivity.
Qed.

(** The code a redemption ends up with: marked used by [uid] at [now]. *)
Lemma redeem_code_outcome uuid now code sess g resp sess' g' :
  redeem uuid now code sess g = (resp, sess', g') ->
  let c := upper (strip (default "" code)) in
  (resp.2 = 400%Z /\ sess' = sess /\ g' = g /\
   (c = "" \/ ACCESS_CODES g !! c = None \/
    exists cd, ACCESS_CODES g !! c = Some cd /\ used cd = true)) \/
  (resp.2 = 200%Z /\ c <> "" /\
   exists cd, ACCESS_CODES g !! c = Some cd /\ used cd = false /\
     let uid := (get_user_id uuid sess).1 in
     sess' = (get_user_id uuid sess).2 /\
     ACCESS_CODES g'
     = <[c := {| code_credits := code_credits cd; used := true; used_by := Some uid;
                 created := created cd; used_at := Some now |}]> (ACCESS_CODES g) /\
     USER_DATA g' = add_credits uid (code_credits cd) (USER_DATA g) /\
     TEMP_STORAGE g' = TEMP_STORAGE g /\
     resp.1 = JObj [("success", JBool true);
                    ("credits_added", JInt (code_credits cd));
                    ("remaining_extractions", JInt (remaining uid (USER_DATA g')));
                    ("message", JStr ("Added " ++ str (code_credits cd)
                                        ++ " extractions to your account!"))]).
Proof.
  intros E c. unfold redeem_code in E. fold c in E.
  destruct (truthy c) eqn:Et; simpl in E.
  2:{ inversion E; subst. left. repeat split. left. apply truthy_empty, Et. }
  destruct (ACCESS_CODES g !! c) as [cd|] eqn:El.
  2:{ inversion E; subst. left. repeat split. right. left. reflexivity. }
  destruct (used cd) eqn:Eu.
  { inversion E; subst. left. repeat split. right. right. exists cd. auto. }
  right. destruct (get_user_id uuid sess) as [uid s1]. simpl in E.
  rewrite (surjective_pairing (get_remaining_extractions FREE_EXTRACTIONS uid _)) in E.
  inversion E; subst. simpl.
  split; [reflexivity|]. split; [apply truthy_true, Et|].
  exists cd. rewrite remaining_users, get_user_data_add_credits.
  repeat split; auto.
Qed.

(** X19. A successful redemption adds exactly the credits of the code to
    the remaining extractions of the redeeming user, marks that code as used
    by that user, and touches no other user, no other code and no stored
    data. *)
Theorem redeem_code_adds_its_credits uuid now code sess g resp sess' g' :
  redeem_code FREE_EXTRACTIONS strip upper uuid now code sess g = (resp, sess', g') ->
  resp.2 = 200%Z ->
  let c := upper (strip (default "" code)) in
  let uid := (get_user_id uuid sess).1 in
  exists cd,
    ACCESS_CODES g !! c = Some cd /\ used cd = false /\
    (get_remaining_extractions FREE_EXTRACTIONS uid (USER_DATA g')).1
    = ((get_remaining_extractions FREE_EXTRACTIONS uid (USER_DATA g)).1 + code_credits cd)%Z /\
    (exists cd', ACCESS_CODES g' !! c = Some cd' /\ used cd' = true /\
                 used_by cd' = Some uid /\ code_credits cd' = code_credits cd) /\
    (forall uid', uid <> uid' -> USER_DATA g' !! uid' = USER_DATA g !! uid') /\
    (forall c', c <> c' -> ACCESS_CODES g' !! c' = ACCESS_CODES g !! c') /\
    TEMP_STORAGE g' = TEMP_STORAGE g.
Proof.
  intros E Hs c uid. apply redeem_code_outcome in E.
  destruct E as [(Hs' & _)|(_ & Hc & cd & El & Eu & _ & Hcodes & Husers & Htemp & _)];
    [rewrite Hs in Hs'; discriminate|].
  fold c in El, Hcodes. fold uid in Hcodes, Husers.
  exists cd. split; [exact El|]. split; [exact Eu|]. split.
  { rewrite Husers. apply remaining_add_credits. }
  split.
  { eexists. rewrite Hcodes, lookup_insert_eq. split; [reflexivity|]. simpl. auto. }
  split.
  { intros uid' Hne. rewrite Husers. apply add_credits_other, Hne. }
  split; [|exact Htemp].
  intros c' Hne. rewrite Hcodes. apply lookup_insert_ne, Hne.
Qed.

(** X20. A redemption that is refused (empty, unknown or used code) changes
    nothing: the globals are as before, and so is the session, in which no
    user id is created. *)
Theorem redeem_code_refusal_changes_nothing uuid now code sess g resp sess' g' :
  redeem_code FREE_EXTRACTIONS strip upper uuid now code sess g = (resp, sess', g') ->
  resp.2 <> 200%Z ->
  sess' = sess /\ g' = g /\ resp.2 = 400%Z.
Proof.
  intros E Hs. apply redeem_code_outcome in E.
  destruct E as [(Hs' & H1 & H2 & _)|(Hs' & _)]; [auto|contradiction].
Qed.

(** *** Generating codes *)

Lemma new_codes_loop_spec random c rounds :
  forall codes acc codes' out,
    new_codes_loop upper random c rounds codes acc = (codes', out) ->
    out = (acc ++ (code_of upper ∘ random <$> rounds))%list /\
    Forall (fun code => exists now,
              codes' !! code = Some {| code_credits := c; used := false; used_by := None;
                                       created := now; used_at := None |})
           (code_of upper ∘ random <$> rounds) /\
    (forall k, k ∉ (code_of upper ∘ random <$> rounds) -> codes' !! k = codes !! k).
Proof.
  induction rounds as [|i rounds IH]; intros codes acc codes' out E; simpl in E.
  - inversion E; subst. rewrite fmap_nil, app_nil_r.
    split; [reflexivity|]. split; [constructor|]. intros k _. reflexivity.
  - destruct (random i) as [[hex below] now] eqn:Er.
    apply IH in E as (Hout & Hall & Hrest).
    assert (Ec : (code_of upper ∘ random) i = "DD17-" ++ upper hex ++ "-" ++ str (below + 1000))
      by (unfold compose, code_of; rewrite Er; reflexivity).
    rewrite fmap_cons, Ec. split; [rewrite Hout, <- app_assoc; reflexivity|]. split.
    + constructor; [|exact Hall].
      set (code := "DD17-" ++ upper hex ++ "-" ++ str (below + 1000)) in *.
      destruct (decide (code ∈ (code_of upper ∘ random <$> rounds))) as [Hin|Hnin].
      * exact (proj1 (Forall_forall _ _) Hall _ Hin).
      * exists now. rewrite (Hrest _ Hnin). apply lookup_insert_eq.
    + intros k Hk. apply not_elem_of_cons in Hk as [Hne Hk].
      rewrite (Hrest _ Hk). apply lookup_insert_ne. congruence.
Qed.

#[local] Abbreviation make_codes := (generate_codes ADMIN_PASSWORD upper).

Lemma generate_codes_outcome random password num_codes cr g resp g' :
  make_codes random password num_codes cr g = (resp, g') ->
  let n := default 1%Z num_codes in
  let c := default 25%Z cr in
  (resp.2 = 401%Z /\ g' = g /\ default "" password <> ADMIN_PASSWORD) \/
  (resp.2 = 400%Z /\ g' = g /\ default "" password = ADMIN_PASSWORD /\
   ~ (1 <= n <= 100 /\ 1 <= c <= 1000)%Z) \/
  (resp.2 = 200%Z /\ default "" password = ADMIN_PASSWORD /\
   (1 <= n <= 100)%Z /\ (1 <= c <= 1000)%Z /\
   let new_codes := code_of upper ∘ random <$> seq 0 (Z.to_nat n) in
   resp.1 = JObj [("success", JBool true);
                  ("codes", JArr (JStr <$> new_codes));
                  ("credits_per_code", JInt c)] /\
   Forall (fun code => exists now,
             ACCESS_CODES g' !! code
             = Some {| code_credits := c; used := false; used_by := None;
                       created := now; used_at := None |}) new_codes /\
   (forall k, k ∉ new_codes -> ACCESS_CODES g' !! k = ACCESS_CODES g !! k) /\
   USER_DATA g' = USER_DATA g /\ TEMP_STORAGE g' = TEMP_STORAGE g).
Proof.
  intros E n c. unfold generate_codes in E. fold n c in E.
  destruct (String.eqb_spec (default "" password) ADMIN_PASSWORD) as [Hp|Hp]; simpl in E.
  2:{ inversion E; subst. left. auto. }
  right.
  destruct (Z.ltb_spec n 1); simpl in E.
  { inversion E; subst. left. repeat split; auto. lia. }
  destruct (Z.ltb_spec 100 n); simpl in E.
  { inversion E; subst. left. repeat split; auto. lia. }
  destruct (Z.ltb_spec c 1); simpl in E.
  { inversion E; subst. left. repeat split; auto. lia. }
  destruct (Z.ltb_spec 1000 c); simpl in E.
  { inversion E; subst. left. repeat split; auto. lia. }
  right.
  destruct (new_codes_loop upper random c (seq 0 (Z.to_nat n)) (ACCESS_CODES g) [])
    as [codes out] eqn:EL.
  apply new_codes_loop_spec in EL as (Hout & Hall & Hrest). simpl in Hout.
  inversion E; subst. simpl. repeat split; auto; lia.
Qed.

(** X21. [generate_codes] checks in this order, and changes nothing when a
    check fails: a password other than the admin password is answered 401
    "Invalid admin password"; then a number of codes outside 1..100 is
    answered 400 "Number of codes must be between 1 and 100"; then credits
    per code outside 1..1000 are answered 400 "Credits per code must be
    between 1 and 1000" (the defaults are 1 code and 25 credits).  It
    answers 200 exactly when all three checks pass. *)
Theorem generate_codes_checks random password num_codes cr g resp g' :
  generate_codes ADMIN_PASSWORD upper random password num_codes cr g = (resp, g') ->
  let n := default 1%Z num_codes in
  let c := default 25%Z cr in
  (default "" password <> ADMIN_PASSWORD ->
   resp = error "Invalid admin password" 401 /\ g' = g) /\
  (default "" password = ADMIN_PASSWORD -> ~ (1 <= n <= 100)%Z ->
   resp = error "Number of codes must be between 1 and 100" 400 /\ g' = g) /\
  (default "" password = ADMIN_PASSWORD -> (1 <= n <= 100)%Z -> ~ (1 <= c <= 1000)%Z ->
   resp = error "Credits per code must be between 1 and 1000" 400 /\ g' = g) /\
  (resp.2 = 200%Z <->
   default "" password = ADMIN_PASSWORD /\ (1 <= n <= 100)%Z /\ (1 <= c <= 1000)%Z).
Proof.
  intros E n c. unfold generate_codes in E. fold n c in E.
  destruct (String.eqb_spec (default "" password) ADMIN_PASSWORD) as [Hp|Hp]; simpl in E.
  2:{ inversion E; subst. simpl.
      split; [auto|]. split; [intros; contradiction|]. split; [intros; contradiction|].
      split; [discriminate|]. intros [Hp' _]. contradiction. }
  destruct (Z.ltb_spec n 1) as [Hn1|Hn1]; simpl in E.
  { inversion E; subst. simpl.
    split; [intros; contradiction|]. split; [auto|]. split; [intros _ Hn; lia|].
    split; [discriminate|]. intros (_ & Hn & _). lia. }
  destruct (Z.ltb_spec 100 n) as [Hn2|Hn2]; simpl in E.
  { inversion E; subst. simpl.
    split; [intros; contradiction|]. split; [auto|]. split; [intros _ Hn; lia|].
    split; [discriminate|]. intros (_ & Hn & _). lia. }
  destruct (Z.ltb_spec c 1) as [Hc1|Hc1]; simpl in E.
  { inversion E; subst. simpl.
    split; [intros; contradiction|]. split; [intros _ Hn; lia|]. split; [auto|].
    split; [discriminate|]. intros (_ & _ & Hc). lia. }
  destruct (Z.ltb_spec 1000 c) as [Hc2|Hc2]; simpl in E.
  { inversion E; subst. simpl.
    split; [intros; contradiction|]. split; [intros _ Hn; lia|]. split; [auto|].
    split; [discriminate|]. intros (_ & _ & Hc). lia. }
  destruct (new_codes_loop upper random c (seq 0 (Z.to_nat n)) (ACCESS_CODES g) [])
    as [codes out].
  inversion E; subst. simpl.
  split; [intros; contradiction|]. split; [intros _ Hn; lia|]. split; [intros _ _ Hc; lia|].
  split; [intros _; repeat split; auto; lia|reflexivity].
Qed.

(** X22. After a successful [generate_codes], every code it returns is in
    [ACCESS_CODES], unused and worth the requested credits (also when the
    same code existed before, used or not); as many codes are returned as
    were asked for; access codes that were not returned, the users and the
    stored data are as before. *)
Theorem generate_codes_makes_fresh_codes random password num_codes cr g resp g' :
  generate_codes ADMIN_PASSWORD upper random password num_codes cr g = (resp, g') ->
  resp.2 = 200%Z ->
  exists new_codes,
    resp.1 = JObj [("success", JBool true);
                   ("codes", JArr (JStr <$> new_codes));
                   ("credits_per_code", JInt (default 25%Z cr))] /\
    Z.of_nat (length new_codes) = default 1%Z num_codes /\
    Forall (fun code => exists cd,
              ACCESS_CODES g' !! code = Some cd /\ used cd = false /\
              used_by cd = None /\ code_credits cd = default 25%Z cr) new_codes /\
    (forall k, k ∉ new_codes -> ACCESS_CODES g' !! k = ACCESS_CODES g !! k) /\
    USER_DATA g' = USER_DATA g /\ TEMP_STORAGE g' = TEMP_STORAGE g.
Proof.
  intros E Hs. apply generate_codes_outcome in E.
  destruct E as [(Hs' & _)|[(Hs' & _)|(_ & Hp & Hn & Hc & Hb & Hall & Hrest & Hu & Ht)]];
    try (rewrite Hs in Hs'; discriminate).
  eexists. split; [exact Hb|]. split.
  { rewrite length_fmap, length_seq. lia. }
  split; [|auto].
  eapply Forall_impl; [exact Hall|]. intros code [now Hl].
  eexists. split; [exact Hl|]. simpl. auto.
Qed.

(** A code that is marked used stays so, as long as it is not issued
    again. *)
Lemma used_code_stays_used c g g'' :
  reached_without_reissue FREE_EXTRACTIONS ANTHROPIC_API_KEY ADMIN_PASSWORD strip upper
    c g g'' ->
  (exists cd, ACCESS_CODES g !! c = Some cd /\ used cd = true) ->
  exists cd, ACCESS_CODES g'' !! c = Some cd /\ used cd = true.
Proof.
  intros Hr Hu. induction Hr as [|g1 uuid now code sess _ IH
                                  |g1 image cfp cfb png vision nb uuid sp ep sess _ IH
                                  |g1 random password num_codes cr _ IH Hnin].
  - exact Hu.
  - destruct (redeem_code FREE_EXTRACTIONS strip upper uuid now code sess g1)
      as [[resp sess'] g2] eqn:E. simpl.
    apply redeem_code_outcome in E.
    destruct E as [(_ & _ & -> & _)|(_ & _ & cd & _ & _ & _ & Hcodes & _)]; [exact IH|].
    rewrite Hcodes.
    destruct (decide (upper (strip (default "" code)) = c)) as [<-|Hne].
    + eexists. rewrite lookup_insert_eq. split; reflexivity.
    + rewrite lookup_insert_ne by exact Hne. exact IH.
  - destruct (extract_items FREE_EXTRACTIONS ANTHROPIC_API_KEY cfp cfb png vision upper nb
                uuid sp ep sess g1) as [[resp sess'] g2] eqn:E. simpl.
    destruct (extract_items_outcome _ _ _ _ _ _ _ _ _ _ _ _ _ _ _ _ E) as (Hc & _).
    rewrite Hc. exact IH.
  - destruct (generate_codes ADMIN_PASSWORD upper random password num_codes cr g1)
      as [resp g2] eqn:E. simpl.
    apply generate_codes_outcome in E.
    destruct E as [(_ & -> & _)|[(_ & -> & _)|(_ & _ & _ & _ & _ & _ & Hrest & _)]];
      try exact IH.
    rewrite (Hrest _ Hnin). exact IH.
Qed.

(** X18. A redeemed access code cannot be redeemed again unless
    [generate_codes] issues the same code anew: after a successful
    redemption, and after any further redemptions, extractions and code
    generations that do not issue this code again, every attempt to redeem
    it (in any spelling that strips and upper-cases to the same code, from
    any session) is answered 400 "This code has already been used" and
    changes nothing. *)
Theorem redeem_code_only_once uuid now code sess g resp sess' g' g''
    uuid2 now2 code2 sess2 :
  redeem_code FREE_EXTRACTIONS strip upper uuid now code sess g = (resp, sess', g') ->
  resp.2 = 200%Z ->
  reached_without_reissue FREE_EXTRACTIONS ANTHROPIC_API_KEY ADMIN_PASSWORD strip upper
    (upper (strip (default "" code))) g' g'' ->
  upper (strip (default "" code2)) = upper (strip (default "" code)) ->
  redeem_code FREE_EXTRACTIONS strip upper uuid2 now2 code2 sess2 g''
  = (error "This code has already been used" 400, sess2, g'').
Proof.
  intros E Hs Hr Hsame. apply redeem_code_outcome in E.
  destruct E as [(Hs' & _)|(_ & Hc & cd & El & Eu & _ & Hcodes & _)];
    [rewrite Hs in Hs'; discriminate|].
  destruct (used_code_stays_used _ _ _ Hr) as (cd'' & Hl'' & Hu'').
  { eexists. rewrite Hcodes, lookup_insert_eq. split; reflexivity. }
  unfold redeem_code. rewrite Hsame. apply truthy_true in Hc. rewrite Hc. simpl.
  rewrite Hl'', Hu''. reflexivity.
Qed.

Lemma redeem_code_keeps_credits_ok uuid now code sess g :
  credits_ok g -> credits_ok (redeem uuid now code sess g).2.
Proof.
  intros [Hu Hc].
  destruct (redeem uuid now code sess g) as [[resp sess'] g'] eqn:E. simpl.
  apply redeem_code_outcome in E.
  destruct E as [(_ & _ & -> & _)|(_ & _ & cd & El & _ & _ & Hcodes & Husers & _)];
    [split; assumption|].
  pose proof (Hc _ _ El) as Hcd. split.
  - rewrite Husers. apply users_ok_add_credits; [exact Hu|lia].
  - intros k cd' Hl. rewrite Hcodes in Hl.
    destruct (decide (upper (strip (default "" code)) = k)) as [<-|Hne].
    + rewrite lookup_insert_eq in Hl. inversion Hl; subst. simpl. exact Hcd.
    + rewrite lookup_insert_ne in Hl by exact Hne. exact (Hc _ _ Hl).
Qed.

Lemma generate_codes_keeps_credits_ok random password num_codes cr g :
  credits_ok g -> credits_ok (make_codes random password num_codes cr g).2.
Proof.
  intros [Hu Hc].
  destruct (make_codes random password num_codes cr g) as [resp g'] eqn:E. simpl.
  apply generate_codes_outcome in E.
  destruct E as [(_ & -> & _)|[(_ & -> & _)|(_ & _ & _ & Hcr & _ & Hall & Hrest & Husers & _)]];
    try (split; assumption).
  split; [rewrite Husers; exact Hu|].
  intros k cd Hl.
  destruct (decide (k ∈ (code_of upper ∘ random <$> seq 0 (Z.to_nat (default 1%Z num_codes)))))
    as [Hin|Hnin].
  - destruct (proj1 (Forall_forall _ _) Hall _ Hin) as [now Hk].
    rewrite Hk in Hl. inversion Hl; subst. simpl. exact Hcr.
  - rewrite (Hrest _ Hnin) in Hl. exact (Hc _ _ Hl).
Qed.

End AccessCodeFacts.

(** ** Credits across the handlers *)

(** X23. No handler makes a user owe credits: when no user has negative
    credits and every access code is worth between 1 and 1000, the same
    holds after [redeem_code], after [generate_codes] and after
    [extract_items], whatever the request and whatever its outcome. *)
Theorem credits_never_negative (g : app.globals) :
  credits_ok g ->
  (forall free strip upper uuid now code sess,
      credits_ok (app.redeem_code free strip upper uuid now code sess g).2) /\
  (forall admin upper random password num_codes cr,
      credits_ok (app.generate_codes admin upper random password num_codes cr g).2) /\
  (forall free api_key (image : Type) cfp cfb (png : image -> vision_extractor.bytes)
          vision upper not_bytes uuid start_page end_page sess,
      credits_ok (app.extract_items free api_key cfp cfb png vision upper not_bytes
                    uuid start_page end_page sess g).2).
Proof.
  intros H. split; [|split]; intros.
  - apply redeem_code_keeps_credits_ok, H.
  - apply generate_codes_keeps_credits_ok, H.
  - apply extract_items_keeps_credits_ok, H.
Qed.

(** ** From the request to the form *)

Lemma to_dd1750_items_lookup (items_data : list app.item_fields) (j : nat) (f : app.item_fields) :
  items_data !! j = Some f ->
  app.to_dd1750_items items_data !! j
  = Some {| line_no := Z.of_nat j + 1;
            description := default "" (app.get_description f);
            nsn := default "" (app.get_nsn f);
            unit_of_issue := default "EA" (app.get_unit_of_issue f);
            initial_qty := default 1%Z (app.get_qty f);
            spares_qty := 0;
            total_qty := default 1%Z (app.get_qty f) |}.
Proof.
  intros Hl. unfold app.to_dd1750_items. rewrite list_lookup_imap, Hl. reflexivity.
Qed.

(** X24. The form numbers the items of a [/generate] request consecutively
    from 1 across pages: the item at index [j] of the request is drawn on
    page [j / 18], row [j mod 18], with line number [j + 1], its quantity
    (1 when absent) as both initial and total quantity, and 0 spares; the
    form has as many items as the request. *)
Theorem form_rows_are_numbered (items_data : list app.item_fields)
    (header : option DD1750Header) (j : nat) (f : app.item_fields) :
  items_data !! j = Some f ->
  let items := app.to_dd1750_items items_data in
  let q := default 1%Z (app.get_qty f) in
  length items = length items_data /\
  j / 18 < total_pages items /\
  exists before after,
    overlay_ops items header (j / 18)
    = (before ++
       spec_row (j mod 18)
         {| line_no := Z.of_nat j + 1;
            description := default "" (app.get_description f);
            nsn := default "" (app.get_nsn f);
            unit_of_issue := default "EA" (app.get_unit_of_issue f);
            initial_qty := q; spares_qty := 0; total_qty := q |}
       ++ after)%list.
Proof.
  intros Hl items q.
  split; [unfold items, app.to_dd1750_items; apply length_imap|].
  pose proof (to_dd1750_items_lookup items_data j f Hl) as Hi. fold items in Hi.
  destruct (item_on_its_page items header j _ Hi) as (Hp & _ & Hd).
  split; [exact Hp|exact Hd].
Qed.

(** ** The application on sample data *)

Lemma use_extraction_iff_remaining_witness :
  (app.use_extraction 3 "alice" (app.USER_DATA some_globals)).1 = true
  <-> (0 < (app.get_remaining_extractions 3 "alice" (app.USER_DATA some_globals)).1)%Z.
Proof.
  apply (use_extraction_iff_remaining 3 "alice" (app.USER_DATA some_globals)).
  intros d Hl. vm_compute in Hl. inversion Hl. vm_compute. discriminate.
Defined.

Lemma use_extraction_costs_one_witness :
  (app.get_remaining_extractions 3 "alice"
     (app.use_extraction 3 "alice" (app.USER_DATA some_globals)).2).1
  = ((app.get_remaining_extractions 3 "alice" (app.USER_DATA some_globals)).1 - 1)%Z.
Proof.
  exact (proj1 (use_extraction_costs_one 3 "alice" (app.USER_DATA some_globals) true
                  (app.use_extraction 3 "alice" (app.USER_DATA some_globals)).2
                  ltac:(vm_compute; reflexivity))).
Defined.

Lemma credit_changes_are_per_user_witness :
  (app.use_extraction 3 "alice" (app.USER_DATA some_globals)).2 !! "bob"
  = app.USER_DATA some_globals !! "bob".
Proof.
  exact (proj1 (credit_changes_are_per_user 3 "alice" "bob" (app.USER_DATA some_globals) 1
                  ltac:(discriminate))).
Defined.

Lemma extract_items_charges_success_only_witness :
  (app.get_remaining_extractions 3 "alice"
     (app.USER_DATA (some_route "u-1" None None (session_of "alice") some_globals).2)).1
  = ((app.get_remaining_extractions 3 "alice" (app.USER_DATA some_globals)).1 - 1)%Z.
Proof.
  exact (proj1 (extract_items_charges_success_only 3 "sk-key" no_path three_pages page_tag
                  sees_wrench id type_error "u-1" None None (session_of "alice") some_globals
                  (some_route "u-1" None None (session_of "alice") some_globals).1.1
                  (some_route "u-1" None None (session_of "alice") some_globals).1.2
                  (some_route "u-1" None None (session_of "alice") some_globals).2
                  ltac:(vm_compute; reflexivity))).
Defined.

Lemma extract_items_refuses_only_without_credit_witness :
  ((app.get_remaining_extractions 3 "bob" (app.USER_DATA some_globals)).1 <= 0)%Z.
Proof.
  exact (proj1 (extract_items_refuses_only_without_credit 3 "sk-key" no_path three_pages
                  page_tag sees_wrench id type_error "u-1" None None (session_of "bob")
                  some_globals
                  (some_route "u-1" None None (session_of "bob") some_globals).1.1
                  (some_route "u-1" None None (session_of "bob") some_globals).1.2
                  (some_route "u-1" None None (session_of "bob") some_globals).2
                  ltac:(vm_compute; reflexivity) ltac:(vm_compute; reflexivity))).
Defined.

Lemma redeem_code_only_once_witness :
  app.redeem_code 3 id id "u-2" "2024-05-03T10:00:00" (Some "DD17-ABCD-1234")
    (session_of "bob") after_some_requests
  = (app.error "This code has already been used" 400, session_of "bob",
     after_some_requests).
Proof.
  apply (redeem_code_only_once 3 "sk-key" "secret" id id
           "u-1" "2024-05-02T10:00:00" (Some "DD17-ABCD-1234") new_session some_globals
           (app.redeem_code 3 id id "u-1" "2024-05-02T10:00:00" (Some "DD17-ABCD-1234")
              new_session some_globals).1.1
           (app.redeem_code 3 id id "u-1" "2024-05-02T10:00:00" (Some "DD17-ABCD-1234")
              new_session some_globals).1.2
           (app.redeem_code 3 id id "u-1" "2024-05-02T10:00:00" (Some "DD17-ABCD-1234")
              new_session some_globals).2).
  - vm_compute. reflexivity.
  - vm_compute. reflexivity.
  - unfold after_some_requests.
    apply reached_generate.
    + apply (reached_extract _ _ _ _ _ _ _ _ nat).
      apply reached_here.
    + intros Hin. apply (bool_decide_pack _) in Hin. vm_compute in Hin. exact Hin.
  - reflexivity.
Defined.

Lemma redeem_code_adds_its_credits_witness :
  exists cd,
    app.ACCESS_CODES some_globals !! "DD17-ABCD-1234" = Some cd /\
    (app.get_remaining_extractions 3 "bob"
       (app.USER_DATA (app.redeem_code 3 id id "u-1" "2024-05-02T10:00:00"
                         (Some "DD17-ABCD-1234") (session_of "bob") some_globals).2)).1
    = ((app.get_remaining_extractions 3 "bob" (app.USER_DATA some_globals)).1
       + app.code_credits cd)%Z.
Proof.
  destruct (redeem_code_adds_its_credits 3 id id "u-1" "2024-05-02T10:00:00"
              (Some "DD17-ABCD-1234") (session_of "bob") some_globals
              (app.redeem_code 3 id id "u-1" "2024-05-02T10:00:00" (Some "DD17-ABCD-1234")
                 (session_of "bob") some_globals).1.1
              (app.redeem_code 3 id id "u-1" "2024-05-02T10:00:00" (Some "DD17-ABCD-1234")
                 (session_of "bob") some_globals).1.2
              (app.redeem_code 3 id id "u-1" "2024-05-02T10:00:00" (Some "DD17-ABCD-1234")
                 (session_of "bob") some_globals).2
              ltac:(vm_compute; reflexivity) ltac:(vm_compute; reflexivity))
    as (cd & El & _ & Hr & _).
  exists cd. split; [exact El|exact Hr].
Defined.

Lemma redeem_code_refusal_changes_nothing_witness :
  (app.redeem_code 3 id id "u-1" "2024-05-02T10:00:00" (Some "DD17-0000-0000")
     new_session some_globals).1.2 = new_session /\
  (app.redeem_code 3 id id "u-1" "2024-05-02T10:00:00" (Some "DD17-0000-0000")
     new_session some_globals).2 = some_globals.
Proof.
  destruct (redeem_code_refusal_changes_nothing 3 id id "u-1" "2024-05-02T10:00:00"
              (Some "DD17-0000-0000") new_session some_globals
              (app.redeem_code 3 id id "u-1" "2024-05-02T10:00:00" (Some "DD17-0000-0000")
                 new_session some_globals).1.1
              (app.redeem_code 3 id id "u-1" "2024-05-02T10:00:00" (Some "DD17-0000-0000")
                 new_session some_globals).1.2
              (app.redeem_code 3 id id "u-1" "2024-05-02T10:00:00" (Some "DD17-0000-0000")
                 new_session some_globals).2
              ltac:(vm_compute; reflexivity) ltac:(vm_compute; discriminate))
    as (H1 & H2 & _).
  split; assumption.
Defined.

Lemma generate_codes_checks_witness :
  app.generate_codes "secret" id some_draws (Some "guess") (Some 2%Z) None some_globals
  = (app.error "Invalid admin password" 401, some_globals) /\
  app.generate_codes "secret" id some_draws (Some "secret") (Some 101%Z) None some_globals
  = (app.error "Number of codes must be between 1 and 100" 400, some_globals) /\
  app.generate_codes "secret" id some_draws (Some "secret") None (Some 0%Z) some_globals
  = (app.error "Credits per code must be between 1 and 1000" 400, some_globals).
Proof.
  split; [|split].
  - destruct (proj1 (generate_codes_checks "secret" id some_draws (Some "guess")
                       (Some 2%Z) None some_globals
                       (app.generate_codes "secret" id some_draws (Some "guess")
                          (Some 2%Z) None some_globals).1
                       (app.generate_codes "secret" id some_draws (Some "guess")
                          (Some 2%Z) None some_globals).2
                       ltac:(vm_compute; reflexivity))
                ltac:(vm_compute; discriminate)) as [H1 H2].
    apply injective_projections; [exact H1|exact H2].
  - destruct (proj1 (proj2 (generate_codes_checks "secret" id some_draws (Some "secret")
                       (Some 101%Z) None some_globals
                       (app.generate_codes "secret" id some_draws (Some "secret")
                          (Some 101%Z) None some_globals).1
                       (app.generate_codes "secret" id some_draws (Some "secret")
                          (Some 101%Z) None some_globals).2
                       ltac:(vm_compute; reflexivity)))
                ltac:(reflexivity) ltac:(simpl; lia)) as [H1 H2].
    apply injective_projections; [exact H1|exact H2].
  - destruct (proj1 (proj2 (proj2 (generate_codes_checks "secret" id some_draws
                       (Some "secret") None (Some 0%Z) some_globals
                       (app.generate_codes "secret" id some_draws (Some "secret")
                          None (Some 0%Z) some_globals).1
                       (app.generate_codes "secret" id some_draws (Some "secret")
                          None (Some 0%Z) some_globals).2
                       ltac:(vm_compute; reflexivity))))
                ltac:(reflexivity) ltac:(simpl; lia) ltac:(simpl; lia)) as [H1 H2].
    apply injective_projections; [exact H1|exact H2].
Defined.

Lemma generate_codes_makes_fresh_codes_witness :
  exists new_codes,
    Z.of_nat (length new_codes) = 2%Z /\
    Forall (fun code => exists cd,
              app.ACCESS_CODES
                (app.generate_codes "secret" id some_draws (Some "secret") (Some 2%Z) None
                   some_globals).2 !! code = Some cd /\
              app.used cd = false /\ app.used_by cd = None /\ app.code_credits cd = 25%Z)
           new_codes.
Proof.
  destruct (generate_codes_makes_fresh_codes "secret" id some_draws (Some "secret")
              (Some 2%Z) None some_globals
              (app.generate_codes "secret" id some_draws (Some "secret") (Some 2%Z) None
                 some_globals).1
              (app.generate_codes "secret" id some_draws (Some "secret") (Some 2%Z) None
                 some_globals).2
              ltac:(vm_compute; reflexivity) ltac:(vm_compute; reflexivity))
    as (new_codes & _ & Hn & Hall & _).
  exists new_codes. split; [exact Hn|exact Hall].
Defined.

Lemma credits_ok_some_globals : credits_ok some_globals.
Proof.
  split.
  - intros uid d Hl. simpl in Hl.
    apply lookup_insert_Some in Hl as [[_ <-]|[_ Hl]]; [simpl; lia|].
    apply lookup_singleton_Some in Hl as [_ <-]. simpl. lia.
  - intros c cd Hl. simpl in Hl.
    apply lookup_singleton_Some in Hl as [_ <-]. simpl. lia.
Defined.

(** At a populated state: an extraction that is charged, a redemption that
    adds credits, and a generation of codes. *)
Lemma credits_never_negative_witness :
  credits_ok (some_route "u-1" None None (session_of "alice") some_globals).2 /\
  credits_ok (app.redeem_code 3 id id "u-1" "2024-05-02T10:00:00" (Some "DD17-ABCD-1234")
                (session_of "bob") some_globals).2 /\
  credits_ok (app.generate_codes "secret" id some_draws (Some "secret") (Some 2%Z) None
                some_globals).2.
Proof.
  destruct (credits_never_negative some_globals credits_ok_some_globals) as (Hr & Hg & He).
  split; [|split].
  - exact (He 3%Z "sk-key" nat no_path three_pages page_tag sees_wrench id type_error
             "u-1" None None (session_of "alice")).
  - exact (Hr 3%Z id id "u-1" "2024-05-02T10:00:00" (Some "DD17-ABCD-1234")
             (session_of "bob")).
  - exact (Hg "secret" id some_draws (Some "secret") (Some 2%Z) None).
Defined.

Lemma form_rows_are_numbered_witness :
  let items := app.to_dd1750_items (replicate 19 bolt) in
  length items = 19 /\
  18 / 18 < total_pages items /\
  exists before after,
    overlay_ops items None (18 / 18)
    = (before ++
       spec_row (18 mod 18)
         {| line_no := 19; description := "BOLT, MACHINE"; nsn := ""; unit_of_issue := "EA";
            initial_qty := 4; spares_qty := 0; total_qty := 4 |}
       ++ after)%list.
Proof.
  exact (form_rows_are_numbered (replicate 19 bolt) None 18 bolt eq_refl).
Defined.

(** A successful extraction for a user with two credits and no free
    extraction left: status 200, one item, one credit left. *)
Example alice_extracts :
  let '(resp, _, g') := some_route "u-1" None None (session_of "alice") some_globals in
  resp.2 = 200%Z /\
  app.USER_DATA g' !! "alice"
  = Some {| app.extractions_used := 3; app.credits := 1; app.total_paid := 0 |} /\
  exists items, app.TEMP_STORAGE g' !! "alice_items" = Some (app.TItems items) /\ length items = 1.
Proof. vm_compute. split; [reflexivity|]. split; [reflexivity|]. eexists. split; reflexivity. Qed.

(** A rasteriser failure: status 500 and the credit is back. *)
Example alice_is_refunded :
  let '(resp, _, g') :=
    app.extract_items 3 "sk-key" no_path (fun _ _ => inl (vision_extractor.ConversionError "bad PDF"))
      page_tag sees_wrench id type_error "u-1" None None (session_of "alice") some_globals in
  resp = app.error "Extraction failed: bad PDF" 500 /\
  app.USER_DATA g' !! "alice" = Some alice.
Proof. vm_compute. split; reflexivity. Qed.

Lemma extract_items_charges_empty_range_witness :
  exists g',
    some_route "u-1" (Some 3%Z) None (session_of "alice") some_globals
    = ((app.JObj [("success", app.JBool true);
                  ("items", app.JArr []);
                  ("count", app.JInt 0);
                  ("remaining_extractions",
                   app.JInt ((app.get_remaining_extractions 3 "alice"
                                (app.USER_DATA some_globals)).1 - 1))], 200%Z),
       session_of "alice", g') /\
    app.TEMP_STORAGE g' !! "alice_items" = Some (app.TItems []) /\
    (app.get_remaining_extractions 3 "alice" (app.USER_DATA g')).1
    = ((app.get_remaining_extractions 3 "alice" (app.USER_DATA some_globals)).1 - 1)%Z.
Proof.
  apply (extract_items_charges_empty_range 3 "sk-key" no_path three_pages page_tag
           sees_wrench id type_error "u-1" (Some 3%Z) None (session_of "alice") some_globals
           Byte.x25 [Byte.x50; Byte.x44; Byte.x46] [1; 2; 3]).
  - reflexivity.
  - vm_compute. reflexivity.
  - vm_compute. reflexivity.
  - reflexivity.
  - vm_compute. discriminate.
Defined.
